(** * A shallow embedding of the blog application (main.py)

    The application is a Flask program: every request is routed to a view
    function, which reads and writes three tables through the ORM session,
    reads and writes the client's signed session cookie, and answers with a
    rendered template, a redirect or an HTTP error.

    The embedding keeps that shape.  A view is a computation in a small
    state-and-exception monad whose state is the request context (the
    client's cookie, the database, the ORM session's unit of work).  Python
    exceptions ([abort], [AttributeError] on [None], the store's
    [IntegrityError]) are the monad's failures.  Everything the handlers take
    from outside (the clock, the random salt, the outcome of the form
    validators, which live in forms.py) is an explicit input. *)

From Stdlib Require Import ZArith List String Ascii Bool Arith Lia.
From Stdlib Require Import DecimalString.
Import ListNotations.

Local Open Scope string_scope.
Local Open Scope Z_scope.
Local Open Scope list_scope.

(** ** Tables (CONFIGURE TABLES) *)

(** Integer primary keys are [Z]; the nullable foreign-key columns
    ([db.Column(db.Integer, db.ForeignKey(...))] without [nullable=False])
    are [option Z], [None] being SQL NULL. *)

Module User.
Record t : Type := mk
  { id : Z;
    email : string;
    password : string;
    name : string }.
End User.

Module BlogPost.
Record t : Type := mk
  { id : Z;
    author_id : option Z;
    title : string;
    subtitle : string;
    date : string;
    body : string;
    img_url : string }.
End BlogPost.

Module Comment.
Record t : Type := mk
  { id : Z;
    author_id : option Z;
    post_id : option Z;
    text : string }.
End Comment.

(** The database file: the rows of each table in rowid order, and a count
    of the COMMITs the store has been sent (instrumentation, never read by
    the handlers). *)
Record Database : Type := mkDatabase
  { users : list User.t;
    blog_posts : list BlogPost.t;
    comments : list Comment.t;
    commits : nat }.

Definition empty_db : Database :=
  {| users := []; blog_posts := []; comments := []; commits := 0 |}.

(** ** Queries *)

Definition User_query_get (user_id : Z) (d : Database) : option User.t :=
  find (fun u => User.id u =? user_id) (users d).

Definition User_query_filter_by_email_first (e : string) (d : Database)
  : option User.t :=
  find (fun u => String.eqb (User.email u) e) (users d).

(** SQLite stores an INTEGER in 64 bits, signed. *)
Definition sqlite_integer (k : Z) : bool := (- 2 ^ 63 <=? k) && (k <? 2 ^ 63).

(** The row [BlogPost.query.get(post_id)] returns when it returns. No row
    is stored under a key that is not a SQLite integer; the views never
    get that far with such a key, see [query_get]. *)
Definition BlogPost_query_get (post_id : Z) (d : Database) : option BlogPost.t :=
  if sqlite_integer post_id
  then find (fun p => BlogPost.id p =? post_id) (blog_posts d)
  else None.

Definition BlogPost_query_all (d : Database) : list BlogPost.t := blog_posts d.

Definition Comment_query_all (d : Database) : list Comment.t := comments d.

(** [post.author]: the many-to-one relationship, loaded through the
    foreign key. *)
Definition BlogPost_author (p : BlogPost.t) (d : Database) : option User.t :=
  match BlogPost.author_id p with
  | Some uid => User_query_get uid d
  | None => None
  end.

(** ** The ORM session's unit of work *)

(** Objects handed to [db.session.add], attribute changes on a loaded
    object, and objects handed to [db.session.delete] wait in the session
    until [commit] flushes them. New objects have no [id] yet. *)
Inductive Pending : Type :=
| new_User (email password name : string)
| new_BlogPost (title subtitle body img_url : string)
               (author_id : option Z) (date : string)
| new_Comment (text : string) (author_id post_id : option Z)
| dirty_BlogPost (post : BlogPost.t)
| deleted_BlogPost (post : BlogPost.t).

(** SQLite gives a row inserted without a key the largest key of the table
    plus one (the column is INTEGER PRIMARY KEY, not AUTOINCREMENT). *)
Definition next_id (ids : list Z) : Z := 1 + fold_right Z.max 0 ids.

Definition set_users (d : Database) (us : list User.t) : Database :=
  {| users := us; blog_posts := blog_posts d;
     comments := comments d; commits := commits d |}.

Definition set_blog_posts (d : Database) (ps : list BlogPost.t) : Database :=
  {| users := users d; blog_posts := ps;
     comments := comments d; commits := commits d |}.

Definition set_comments (d : Database) (cs : list Comment.t) : Database :=
  {| users := users d; blog_posts := blog_posts d;
     comments := cs; commits := commits d |}.

Definition count_commit (d : Database) : Database :=
  {| users := users d; blog_posts := blog_posts d;
     comments := comments d; commits := S (commits d) |}.

(** The [comments] relationship of BlogPost declares no cascade, so when
    the parent is deleted the ORM clears the foreign key of its children
    (UPDATE comments SET post_id = NULL) before it deletes the row. *)
Definition nullify_parent (post_id : Z) (c : Comment.t) : Comment.t :=
  match Comment.post_id c with
  | Some k =>
      if k =? post_id
      then Comment.mk (Comment.id c) (Comment.author_id c) None (Comment.text c)
      else c
  | None => c
  end.

(** One statement of a flush; [None] is a violated UNIQUE constraint.
    It returns the primary keys it assigned. *)
Definition flush_one (d : Database) (p : Pending) : option (Database * list Z) :=
  match p with
  | new_User e pw n =>
      if existsb (fun u => String.eqb (User.email u) e) (users d) then None
      else
        let k := next_id (map User.id (users d)) in
        Some (set_users d (users d ++ [User.mk k e pw n]), [k])
  | new_BlogPost t st b img a dt =>
      if existsb (fun q => String.eqb (BlogPost.title q) t) (blog_posts d) then None
      else
        let k := next_id (map BlogPost.id (blog_posts d)) in
        Some (set_blog_posts d (blog_posts d ++ [BlogPost.mk k a t st dt b img]), [k])
  | new_Comment txt a pid =>
      let k := next_id (map Comment.id (comments d)) in
      Some (set_comments d (comments d ++ [Comment.mk k a pid txt]), [k])
  | dirty_BlogPost p' =>
      if existsb (fun q => negb (BlogPost.id q =? BlogPost.id p')
                           && String.eqb (BlogPost.title q) (BlogPost.title p'))
                 (blog_posts d)
      then None
      else
        Some (set_blog_posts d
                (map (fun q => if BlogPost.id q =? BlogPost.id p' then p' else q)
                     (blog_posts d)), [])
  | deleted_BlogPost p' =>
      Some (set_blog_posts
              (set_comments d (map (nullify_parent (BlogPost.id p')) (comments d)))
              (filter (fun q => negb (BlogPost.id q =? BlogPost.id p'))
                      (blog_posts d)), [])
  end.

Fixpoint flush (d : Database) (ps : list Pending) : option (Database * list Z) :=
  match ps with
  | [] => Some (d, [])
  | p :: ps' =>
      match flush_one d p with
      | None => None
      | Some (d', ks) =>
          match flush d' ps' with
          | None => None
          | Some (d'', ks') => Some (d'', ks ++ ks')
          end
      end
  end.

(** ** Request context and the view monad *)

(** The signed cookie: flask_login's user id and the flashed messages
    (message, category). *)
Record Session : Type := mkSession
  { user_id : option Z;
    flashes : list (string * string) }.

Definition anonymous_session : Session := {| user_id := None; flashes := [] |}.

Record Ctx : Type := mkCtx
  { session : Session;
    db : Database;
    pending : list Pending }.

Inductive Exception : Type :=
| HTTPException (code : Z)
| AttributeError
| IntegrityError
| UnmappedInstanceError
| OverflowError.

Definition M (A : Type) : Type := Ctx -> (Exception + A) * Ctx.

Definition ret {A} (a : A) : M A := fun c => (inr a, c).

Definition bind {A B} (m : M A) (k : A -> M B) : M B :=
  fun c =>
    match m c with
    | (inl e, c') => (inl e, c')
    | (inr a, c') => k a c'
    end.

Definition raise {A} (e : Exception) : M A := fun c => (inl e, c).

Notation "x <- m ;; k" := (bind m (fun x => k))
  (at level 61, m at next level, right associativity).
Notation "m ;; k" := (bind m (fun _ => k))
  (at level 61, right associativity).

Definition abort {A} (code : Z) : M A := raise (HTTPException code).

Definition query {A} (q : Database -> A) : M A := fun c => (inr (q (db c)), c).

(** [Model.query.get(key)] with a key that comes from the URL: binding
    a Python int that does not fit a SQLite INTEGER raises OverflowError
    before any row is looked up. *)
Definition query_get {A} (get : Z -> Database -> option A) (key : Z)
  : M (option A) :=
  if sqlite_integer key then query (get key) else raise OverflowError.

(** Attribute access on a value that may be [None]. *)
Definition getattr {A} (o : option A) : M A :=
  match o with
  | Some a => ret a
  | None => raise AttributeError
  end.

Definition db_session_add (p : Pending) : M unit :=
  fun c => (inr tt, {| session := session c; db := db c;
                       pending := pending c ++ [p] |}).

Definition db_session_delete (o : option BlogPost.t) : M unit :=
  match o with
  | Some p => db_session_add (deleted_BlogPost p)
  | None => raise UnmappedInstanceError
  end.

(** [db.session.commit()]: one COMMIT is sent; the unit of work is flushed
    and, if a constraint fails, rolled back. The result is the list of
    primary keys the flush wrote back into the new objects. *)
Definition db_session_commit : M (list Z) :=
  fun c =>
    let d := count_commit (db c) in
    match flush d (pending c) with
    | Some (d', keys) =>
        (inr keys, {| session := session c; db := d'; pending := [] |})
    | None =>
        (inl IntegrityError, {| session := session c; db := d; pending := [] |})
    end.

(** The [id] of an object that was added and committed. *)
Definition inserted_id (keys : list Z) : M Z := getattr (hd_error keys).

(** ** flask_login *)

(** [load_user]: the cookie's id is resolved with [User.query.get]; no
    cookie id, or no such row, is the anonymous user. *)
Definition load_user (uid : Z) (d : Database) : option User.t :=
  User_query_get uid d.

Definition session_user (s : Session) (d : Database) : option User.t :=
  match user_id s with
  | Some uid => load_user uid d
  | None => None
  end.

Definition current_user : M (option User.t) :=
  fun c => (inr (session_user (session c) (db c)), c).

Definition is_authenticated (u : option User.t) : bool :=
  match u with Some _ => true | None => false end.

Definition login_user (uid : Z) : M unit :=
  fun c => (inr tt, {| session := {| user_id := Some uid;
                                     flashes := flashes (session c) |};
                       db := db c; pending := pending c |}).

Definition logout_user : M unit :=
  fun c => (inr tt, {| session := {| user_id := None;
                                     flashes := flashes (session c) |};
                       db := db c; pending := pending c |}).

(** No [login_view] is configured, so an anonymous caller gets 401. *)
Definition login_required {A} (function : M A) : M A :=
  cu <- current_user ;;
  if is_authenticated cu then function else abort 401.

Definition flash (message category : string) : M unit :=
  fun c => (inr tt, {| session := {| user_id := user_id (session c);
                                     flashes := flashes (session c)
                                                ++ [(message, category)] |};
                       db := db c; pending := pending c |}).

(** ** Inputs from outside the handlers *)

(** [datetime.date]: a calendar day; its fields are positive integers. *)
Record date_t : Type := mkDate
  { year : Z;
    month : Z;
    day : Z }.

(** What a request draws from its surroundings: the clock read by
    [date.today()] and the random numbers drawn by [secrets.choice],
    the k-th draw being [randomness k]. *)
Record Env : Type := mkEnv
  { today : date_t;
    randomness : nat -> nat }.

Inductive Method : Type := GET | POST.

(** The forms of forms.py as the views use them: the [data] of the
    fields they read. *)
Record RegisterForm : Type := mkRegisterForm
  { reg_email : string;
    reg_password : string;
    reg_name : string }.

Record LoginForm : Type := mkLoginForm
  { login_email : string;
    login_password : string }.

Record CommentForm : Type := mkCommentForm
  { comment : string }.

Record CreatePostForm : Type := mkCreatePostForm
  { form_title : string;
    form_subtitle : string;
    form_img_url : string;
    form_body : string }.

(** [form.validate_on_submit()]: the request is a submission and the
    form's validators accept it. The validators (and the CSRF check) are
    not part of main.py; their verdict [validates] comes with the request. *)
Definition is_submitted (m : Method) : bool :=
  match m with POST => true | GET => false end.

Definition validate_on_submit (m : Method) (validates : bool) : bool :=
  is_submitted m && validates.

(** ** [date.today().strftime("%B %d, %Y")] *)

Definition month_name (m : Z) : string :=
  match m with
  | 1 => "January" | 2 => "February" | 3 => "March"
  | 4 => "April" | 5 => "May" | 6 => "June"
  | 7 => "July" | 8 => "August" | 9 => "September"
  | 10 => "October" | 11 => "November" | 12 => "December"
  | _ => EmptyString
  end.

Definition decimal (n : Z) : string :=
  NilEmpty.string_of_uint (N.to_uint (Z.to_N n)).

(** [%d]: the day of the month, zero-padded to two digits. *)
Definition zero_padded2 (n : Z) : string :=
  if n <? 10 then String "0" (decimal n) else decimal n.

Definition strftime_B_d_Y (d : date_t) : string :=
  (month_name (month d) ++ " " ++ zero_padded2 (day d) ++ ", "
     ++ decimal (year d))%string.

(** ** werkzeug.security *)

Definition SALT_CHARS : string :=
  "abcdefghijklmnopqrstuvwxyzABCDEFGHIJKLMNOPQRSTUVWXYZ0123456789".

(** [secrets.choice(seq)]: the element at a random index below the
    length of [seq]. *)
Definition secrets_choice (r : nat) (seq : string) : ascii :=
  match String.get (r mod String.length seq) seq with
  | Some a => a
  | None => "000"%char
  end.

(** [gen_salt(length)]: that many characters chosen from [SALT_CHARS]. *)
Fixpoint gen_salt_from (random : nat -> nat) (start length : nat) : string :=
  match length with
  | O => EmptyString
  | S n =>
      String (secrets_choice (random start) SALT_CHARS)
             (gen_salt_from random (S start) n)
  end.

Definition gen_salt (env : Env) (length : nat) : string :=
  gen_salt_from (randomness env) 0 length.

(** [s.split("$", 1)]: the text before and after the first dollar sign. *)
Fixpoint split_dollar (s : string) : option (string * string) :=
  match s with
  | EmptyString => None
  | String a rest =>
      if Ascii.eqb a "$" then Some (EmptyString, rest)
      else
        match split_dollar rest with
        | Some (l, r) => Some (String a l, r)
        | None => None
        end
  end.

(** ** Responses *)

Inductive Endpoint : Type :=
| ep_get_all_posts
| ep_login
| ep_show_post (post_id : Z).

(** A template together with the keyword arguments it is rendered with. *)
Inductive Template : Type :=
| index_html (all_posts : list BlogPost.t) (logged_in : bool)
| register_html (form : RegisterForm)
| login_html (form : LoginForm)
| post_html (post : option BlogPost.t) (logged_in : bool)
            (form : CommentForm) (comments : list Comment.t)
| about_html (logged_in : bool)
| contact_html (logged_in : bool)
| make_post_html (form : CreatePostForm) (logged_in : bool).

Inductive Response : Type :=
| render_template (t : Template)
| redirect (url_for : Endpoint).

(** ** The views that do not hash passwords *)

Definition admin_only {A} (function : M A) : M A :=
  cu <- current_user ;;
  match cu with
  | Some u => if User.id u =? 1 then function else abort 403
  | None => abort 403
  end.

Definition get_all_posts : M Response :=
  posts <- query BlogPost_query_all ;;
  cu <- current_user ;;
  let logged_in := if is_authenticated cu then true else false in
  ret (render_template (index_html posts logged_in)).

Definition logout : M Response :=
  login_required (logout_user ;; ret (redirect ep_get_all_posts)).

Definition show_post (m : Method) (post_id : Z) (form : CommentForm)
           (validates : bool) : M Response :=
  requested_post <- query_get BlogPost_query_get post_id ;;
  cu <- current_user ;;
  let logged_in := if is_authenticated cu then true else false in
  let page :=
    comments <- query Comment_query_all ;;
    ret (render_template (post_html requested_post logged_in form comments)) in
  if validate_on_submit m validates then
    let comment := comment form in
    match cu with
    | Some u =>
        post <- getattr requested_post ;;
        db_session_add
          (new_Comment comment (Some (User.id u)) (Some (BlogPost.id post))) ;;
        db_session_commit ;;
        page
    | None =>
        flash "You need to login or register to comment." "message" ;;
        ret (redirect ep_login)
    end
  else page.

Definition about : M Response :=
  cu <- current_user ;;
  let logged_in := if is_authenticated cu then true else false in
  ret (render_template (about_html logged_in)).

Definition contact : M Response :=
  cu <- current_user ;;
  let logged_in := if is_authenticated cu then true else false in
  ret (render_template (contact_html logged_in)).

(** The body of [add_new_post], before [@admin_only] wraps it.
    [author=current_user] needs a mapped User. *)
Definition add_new_post_view (env : Env) (m : Method) (form : CreatePostForm)
           (validates : bool) : M Response :=
  cu <- current_user ;;
  let logged_in := if is_authenticated cu then true else false in
  if validate_on_submit m validates then
    author <- getattr cu ;;
    db_session_add
      (new_BlogPost (form_title form) (form_subtitle form) (form_body form)
                    (form_img_url form) (Some (User.id author))
                    (strftime_B_d_Y (today env))) ;;
    db_session_commit ;;
    ret (redirect ep_get_all_posts)
  else ret (render_template (make_post_html form logged_in)).

Definition add_new_post (env : Env) (m : Method) (form : CreatePostForm)
           (validates : bool) : M Response :=
  admin_only (add_new_post_view env m form validates).

(** [CreatePostForm(title=post.title, ...)]: the keyword arguments fill
    the fields of a form that was not submitted; submitted data wins. *)
Definition prefill (m : Method) (form : CreatePostForm) (post : BlogPost.t)
  : CreatePostForm :=
  if is_submitted m then form
  else {| form_title := BlogPost.title post;
          form_subtitle := BlogPost.subtitle post;
          form_img_url := BlogPost.img_url post;
          form_body := BlogPost.body post |}.

Definition edit_post_view (m : Method) (post_id : Z) (form : CreatePostForm)
           (validates : bool) : M Response :=
  cu <- current_user ;;
  let logged_in := if is_authenticated cu then true else false in
  found <- query_get BlogPost_query_get post_id ;;
  post <- getattr found ;;
  post_author <- query (BlogPost_author post) ;;
  getattr post_author ;;
  let edit_form := prefill m form post in
  if validate_on_submit m validates then
    let post' :=
      {| BlogPost.id := BlogPost.id post;
         BlogPost.author_id := BlogPost.author_id post;
         BlogPost.title := form_title edit_form;
         BlogPost.subtitle := form_subtitle edit_form;
         BlogPost.date := BlogPost.date post;
         BlogPost.body := form_body edit_form;
         BlogPost.img_url := form_img_url edit_form |} in
    db_session_add (dirty_BlogPost post') ;;
    db_session_commit ;;
    ret (redirect (ep_show_post (BlogPost.id post')))
  else ret (render_template (make_post_html edit_form logged_in)).

Definition edit_post (m : Method) (post_id : Z) (form : CreatePostForm)
           (validates : bool) : M Response :=
  admin_only (edit_post_view m post_id form validates).

Definition delete_post_view (post_id : Z) : M Response :=
  post_to_delete <- query_get BlogPost_query_get post_id ;;
  db_session_delete post_to_delete ;;
  db_session_commit ;;
  ret (redirect ep_get_all_posts).

Definition delete_post (post_id : Z) : M Response :=
  admin_only (delete_post_view post_id).

(** ** Routing *)

Inductive Route : Type :=
| url_get_all_posts
| url_register (form : RegisterForm)
| url_login (form : LoginForm)
| url_logout
| url_show_post (post_id : Z) (form : CommentForm)
| url_about
| url_contact
| url_add_new_post (form : CreatePostForm)
| url_edit_post (post_id : Z) (form : CreatePostForm)
| url_delete_post (post_id : Z).

Record Request : Type := mkRequest
  { method : Method;
    route : Route;
    validates : bool }.

(** [@app.route(rule, methods=...)]: a method the rule does not list is
    answered 405 before any view runs. *)
Definition methods {A} (allowed : list Method) (m : Method) (view : M A) : M A :=
  if existsb (fun a => match a, m with
                       | GET, GET | POST, POST => true
                       | _, _ => false
                       end) allowed
  then view else abort 405.

(** [<int:post_id>] matches non-negative integers only. *)
Definition int_converter {A} (post_id : Z) (view : M A) : M A :=
  if post_id <? 0 then abort 404 else view.

Section Security.

(** The key-derivation function itself ([hashlib.pbkdf2_hmac], hex
    encoded), from the method string, the salt and the password. *)
Variable hash_internal : string -> string -> string -> string.

Definition generate_password_hash
           (env : Env) (password method : string) (salt_length : nat) : string :=
  let salt := gen_salt env salt_length in
  (method ++ "$" ++ salt ++ "$" ++ hash_internal method salt password)%string.

Definition check_password_hash (pwhash password : string) : bool :=
  match split_dollar pwhash with
  | Some (method, rest) =>
      match split_dollar rest with
      | Some (salt, hashval) =>
          String.eqb (hash_internal method salt password) hashval
      | None => false
      end
  | None => false
  end.

Definition register (env : Env) (m : Method) (form : RegisterForm)
           (validates : bool) : M Response :=
  if validate_on_submit m validates then
    let email := reg_email form in
    let password := reg_password form in
    let name := reg_name form in
    user <- query (User_query_filter_by_email_first email) ;;
    match user with
    | None =>
        let hashed_password :=
          generate_password_hash env password "pbkdf2:sha256:5" 8 in
        db_session_add (new_User email hashed_password name) ;;
        keys <- db_session_commit ;;
        new_user_id <- inserted_id keys ;;
        login_user new_user_id ;;
        ret (redirect ep_get_all_posts)
    | Some _ =>
        flash "You've already signed up with that email. Login instead"
              "message" ;;
        ret (redirect ep_login)
    end
  else ret (render_template (register_html form)).

Definition login (m : Method) (form : LoginForm) (validates : bool)
  : M Response :=
  let page := ret (render_template (login_html form)) in
  if validate_on_submit m validates then
    let email := login_email form in
    let password := login_password form in
    user <- query (User_query_filter_by_email_first email) ;;
    match user with
    | Some u =>
        if check_password_hash (User.password u) password then
          login_user (User.id u) ;;
          ret (redirect ep_get_all_posts)
        else
          flash "Invalid password." "error" ;;
          page
    | None =>
        flash "This email does not exist. Please try again." "error" ;;
        page
    end
  else page.

Definition dispatch (env : Env) (r : Request) : M Response :=
  let m := method r in
  let v := validates r in
  match route r with
  | url_get_all_posts => methods [GET] m get_all_posts
  | url_register form => methods [GET; POST] m (register env m form v)
  | url_login form => methods [GET; POST] m (login m form v)
  | url_logout => methods [GET] m logout
  | url_show_post post_id form =>
      int_converter post_id (methods [GET; POST] m (show_post m post_id form v))
  | url_about => methods [GET] m about
  | url_contact => methods [GET] m contact
  | url_add_new_post form => methods [GET; POST] m (add_new_post env m form v)
  | url_edit_post post_id form =>
      int_converter post_id (methods [GET; POST] m (edit_post m post_id form v))
  | url_delete_post post_id =>
      int_converter post_id (methods [GET] m (delete_post post_id))
  end.

(** ** The running application *)

(** The database and the cookie each client (browser) holds. *)
Record System : Type := mkSystem
  { store : Database;
    cookies : nat -> Session }.

Definition initial : System :=
  {| store := empty_db; cookies := fun _ => anonymous_session |}.

(** One request of one client: the view runs in a fresh ORM session
    over the client's cookie; what it leaves in the database stays, and
    the cookie goes back to the client. *)
Definition serve (env : Env) (client : nat) (r : Request) (s : System)
  : (Exception + Response) * System :=
  let '(result, c) :=
    dispatch env r {| session := cookies s client;
                      db := store s; pending := [] |} in
  (result,
   {| store := db c;
      cookies := fun k => if Nat.eqb k client then session c else cookies s k |}).

Inductive reachable : System -> Prop :=
| reachable_initial : reachable initial
| reachable_serve env client r s :
    reachable s -> reachable (snd (serve env client r s)).

End Security.

(** ** Vocabulary of the properties *)

(** The context after [flash(message, category)]. *)
Definition flashed (c : Ctx) (message category : string) : Ctx :=
  {| session := {| user_id := user_id (session c);
                   flashes := flashes (session c) ++ [(message, category)] |};
     db := db c; pending := pending c |}.

(** Whether a dollar sign occurs in a string. *)
Fixpoint has_dollar (s : string) : bool :=
  match s with
  | EmptyString => false
  | String a rest => Ascii.eqb a "$" || has_dollar rest
  end.

(** The integers from [lo], [n] of them. *)
Definition Z_range (lo : Z) (n : nat) : list Z :=
  map (fun k => lo + Z.of_nat k) (seq 0 n).

(** The session is authenticated and its user has the privileged id. *)
Definition privileged (c : Ctx) : bool :=
  match session_user (session c) (db c) with
  | Some u => User.id u =? 1
  | None => false
  end.

(** A foreign key references exactly one row of a table. *)
Definition references_one {A} (key : A -> Z) (rows : list A) (fk : option Z)
  : Prop :=
  exists k, fk = Some k /\ List.length (filter (fun r => key r =? k) rows) = 1%nat.

(** The invariants of the data model as the specification words them. *)
Record spec_invariants (d : Database) : Prop := mk_spec_invariants
  { spec_comment_author :
      forall c, In c (comments d) ->
                references_one User.id (users d) (Comment.author_id c);
    spec_comment_post :
      forall c, In c (comments d) ->
                references_one BlogPost.id (blog_posts d) (Comment.post_id c);
    spec_post_author :
      forall p, In p (blog_posts d) ->
                references_one User.id (users d) (BlogPost.author_id p);
    spec_email_unique : NoDup (map User.email (users d));
    spec_title_unique : NoDup (map BlogPost.title (blog_posts d)) }.

(** The same with the parent of a comment allowed to be NULL. *)
Record store_invariants (d : Database) : Prop := mk_store_invariants
  { inv_comment_author :
      forall c, In c (comments d) ->
                references_one User.id (users d) (Comment.author_id c);
    inv_comment_post :
      forall c, In c (comments d) ->
                Comment.post_id c = None \/
                references_one BlogPost.id (blog_posts d) (Comment.post_id c);
    inv_post_author :
      forall p, In p (blog_posts d) ->
                references_one User.id (users d) (BlogPost.author_id p);
    inv_email_unique : NoDup (map User.email (users d));
    inv_title_unique : NoDup (map BlogPost.title (blog_posts d)) }.

(** ** Sample inputs *)

Definition sample_kdf (method salt password : string) : string :=
  (salt ++ ":" ++ password)%string.

Definition sample_env : Env :=
  {| today := {| year := 2026; month := 11; day := 3 |};
     randomness := fun _ => 18%nat |}.

Definition alice : RegisterForm :=
  {| reg_email := "a@x.com"; reg_password := "pw"; reg_name := "Alice" |}.

Definition bob : RegisterForm :=
  {| reg_email := "b@x.com"; reg_password := "pw2"; reg_name := "Bob" |}.

Definition hello : CreatePostForm :=
  {| form_title := "Hello"; form_subtitle := "Sub";
     form_img_url := "http://img"; form_body := "Body" |}.

Definition hello2 : CreatePostForm :=
  {| form_title := "Hello"; form_subtitle := "Sub2";
     form_img_url := "http://img"; form_body := "Body" |}.

Definition nice : CommentForm := {| comment := "Nice!" |}.

(** Requests of a list of clients, served in order. *)
Definition serve_all (l : list (nat * Request)) (s : System) : System :=
  fold_left (fun s cr => snd (serve sample_kdf sample_env (fst cr) (snd cr) s)) l s.

(** Alice registers and posts; Bob registers and comments. *)
Definition blog_with_comment : System :=
  serve_all
    [(0%nat, {| method := POST; route := url_register alice; validates := true |});
     (0%nat, {| method := POST; route := url_add_new_post hello; validates := true |});
     (1%nat, {| method := POST; route := url_register bob; validates := true |});
     (1%nat, {| method := POST; route := url_show_post 1 nice; validates := true |})]
    (initial).

(** Then Alice deletes her post. *)
Definition blog_after_delete : System :=
  serve_all
    [(0%nat, {| method := GET; route := url_delete_post 1; validates := false |})]
    blog_with_comment.

Definition ctx_of (s : System) (client : nat) : Ctx :=
  {| session := cookies s client; db := store s; pending := [] |}.

(** How one request can change the database. *)
Inductive store_step (d : Database) : Database -> Prop :=
| step_none : store_step d d
| step_rolled_back : store_step d (count_commit d)
| step_new_user e pw n :
    ~ In e (map User.email (users d)) ->
    store_step d
      (set_users (count_commit d)
         (users d ++ [User.mk (next_id (map User.id (users d))) e pw n]))
| step_new_post u t st dt b img :
    In u (users d) -> User.id u = 1 ->
    ~ In t (map BlogPost.title (blog_posts d)) ->
    store_step d
      (set_blog_posts (count_commit d)
         (blog_posts d
            ++ [BlogPost.mk (next_id (map BlogPost.id (blog_posts d)))
                            (Some (User.id u)) t st dt b img]))
| step_new_comment u p txt :
    In u (users d) -> In p (blog_posts d) ->
    store_step d
      (set_comments (count_commit d)
         (comments d
            ++ [Comment.mk (next_id (map Comment.id (comments d)))
                           (Some (User.id u)) (Some (BlogPost.id p)) txt]))
| step_edit p p' :
    In p (blog_posts d) ->
    BlogPost.id p' = BlogPost.id p ->
    BlogPost.author_id p' = BlogPost.author_id p ->
    (forall q, In q (blog_posts d) ->
               BlogPost.id q <> BlogPost.id p' ->
               BlogPost.title q <> BlogPost.title p') ->
    store_step d
      (set_blog_posts (count_commit d)
         (map (fun q => if BlogPost.id q =? BlogPost.id p' then p' else q)
              (blog_posts d)))
| step_delete p :
    In p (blog_posts d) ->
    store_step d
      (set_blog_posts
         (set_comments (count_commit d)
            (map (nullify_parent (BlogPost.id p)) (comments d)))
         (filter (fun q => negb (BlogPost.id q =? BlogPost.id p))
                 (blog_posts d))).

(** What every reachable database satisfies: keys are unique, the first
    user has key 1, emails and titles are unique, and every foreign key
    that is not NULL names a row that exists; only the parent of a
    comment can be NULL. *)
Record well_formed (d : Database) : Prop := mk_well_formed
  { wf_user_ids : NoDup (map User.id (users d));
    wf_post_ids : NoDup (map BlogPost.id (blog_posts d));
    wf_comment_ids : NoDup (map Comment.id (comments d));
    wf_first_user : forall u, hd_error (users d) = Some u -> User.id u = 1;
    wf_emails : NoDup (map User.email (users d));
    wf_titles : NoDup (map BlogPost.title (blog_posts d));
    wf_post_author :
      forall p, In p (blog_posts d) ->
                exists u, In u (users d)
                          /\ BlogPost.author_id p = Some (User.id u);
    wf_comment_author :
      forall c, In c (comments d) ->
                exists u, In u (users d)
                          /\ Comment.author_id c = Some (User.id u);
    wf_comment_post :
      forall c, In c (comments d) ->
                Comment.post_id c = None
                \/ exists p, In p (blog_posts d)
                             /\ Comment.post_id c = Some (BlogPost.id p) }.

(** Alice alone has registered. *)
Definition blog_registered : System :=
  serve_all
    [(0%nat, {| method := POST; route := url_register alice; validates := true |})]
    (initial).

Definition second : CreatePostForm :=
  {| form_title := "Second"; form_subtitle := "Sub";
     form_img_url := "http://img2"; form_body := "More" |}.

(** Alice has written a second post, which nobody commented on. *)
Definition blog_two_posts : System :=
  serve_all
    [(0%nat, {| method := POST; route := url_add_new_post second; validates := true |})]
    blog_with_comment.

Definition alice_login : LoginForm :=
  {| login_email := "a@x.com"; login_password := "pw" |}.


(** ** Vocabulary of the further properties *)

(** The routes whose view can change the cookie or the store on a GET. *)
Definition acts_on_get (r : Route) : bool :=
  match r with
  | url_logout | url_delete_post _ => true
  | _ => false
  end.

(** The routes registered without [methods=["GET", "POST"]]. *)
Definition get_only (r : Route) : bool :=
  match r with
  | url_get_all_posts | url_logout | url_about | url_contact
  | url_delete_post _ => true
  | _ => false
  end.

(** The context after [logout_user()]. *)
Definition logged_out (c : Ctx) : Ctx :=
  {| session := {| user_id := None; flashes := flashes (session c) |};
     db := db c; pending := pending c |}.

(** The context after [login_user(u)]. *)
Definition logged_in_as (uid : Z) (c : Ctx) : Ctx :=
  {| session := {| user_id := Some uid; flashes := flashes (session c) |};
     db := db c; pending := pending c |}.

(** The context after a commit that was rolled back. *)
Definition rolled_back (c : Ctx) : Ctx :=
  {| session := session c; db := count_commit (db c); pending := [] |}.

(** What a request can do to the id in the cookie: keep it, drop it, or
    set it to the id of a user of the resulting store. *)
Definition session_step (c c' : Ctx) : Prop :=
  user_id (session c') = user_id (session c)
  \/ user_id (session c') = None
  \/ exists u, In u (users (db c'))
               /\ user_id (session c') = Some (User.id u).

(** * Properties *)

(** ** Running the views *)

Ltac run_view :=
  cbv [bind ret raise abort query query_get getattr db_session_add
       db_session_delete
       db_session_commit inserted_id current_user login_user logout_user
       flash login_required admin_only methods int_converter
       validate_on_submit is_submitted andb];
  cbn [fst snd session db pending user_id flashes app flush hd_error].

Lemma admin_only_run {A} (function : M A) (c : Ctx) :
  admin_only function c
  = if privileged c then function c else (inl (HTTPException 403), c).
Proof.
  unfold admin_only, privileged, bind, current_user, abort, raise.
  destruct (session_user (session c) (db c)) as [u|]; [|reflexivity].
  destruct (User.id u =? 1); reflexivity.
Qed.

Lemma find_id_some {A} (key : A -> Z) (k : Z) (rows : list A) (r : A) :
  find (fun x => key x =? k) rows = Some r -> In r rows /\ key r = k.
Proof.
  intros H. apply find_some in H. destruct H as [Hin Hk].
  split; [assumption | now apply Z.eqb_eq].
Qed.

Lemma BlogPost_query_get_some (post_id : Z) (d : Database) (p : BlogPost.t) :
  BlogPost_query_get post_id d = Some p ->
  In p (blog_posts d) /\ BlogPost.id p = post_id
  /\ sqlite_integer post_id = true.
Proof.
  unfold BlogPost_query_get.
  destruct (sqlite_integer post_id); [|discriminate].
  intros H. apply find_id_some in H. tauto.
Qed.

Lemma BlogPost_query_get_find (post_id : Z) (d : Database) :
  sqlite_integer post_id = true ->
  BlogPost_query_get post_id d
  = find (fun p => BlogPost.id p =? post_id) (blog_posts d).
Proof. unfold BlogPost_query_get. now intros ->. Qed.

Lemma session_user_in (s : Session) (d : Database) (u : User.t) :
  session_user s d = Some u -> In u (users d) /\ user_id s = Some (User.id u).
Proof.
  unfold session_user, load_user, User_query_get.
  destruct (user_id s) as [uid|]; [|discriminate].
  intros H. apply find_id_some in H. destruct H as [Hin Hid].
  split; [assumption | now rewrite Hid].
Qed.

Lemma logged_in_flag (cu : option User.t) :
  (if is_authenticated cu then true else false) = is_authenticated cu.
Proof. destruct cu; reflexivity. Qed.

Lemma show_post_overflow (m : Method) (post_id : Z) (form : CommentForm)
      (v : bool) (c : Ctx) :
  sqlite_integer post_id = false ->
  show_post m post_id form v c = (inl OverflowError, c).
Proof. intros H. unfold show_post. run_view. now rewrite H. Qed.

Lemma show_post_get (post_id : Z) (form : CommentForm) (v : bool) (c : Ctx) :
  sqlite_integer post_id = true ->
  show_post GET post_id form v c
  = (inr (render_template
            (post_html (BlogPost_query_get post_id (db c))
                       (is_authenticated (session_user (session c) (db c)))
                       form (comments (db c)))), c).
Proof.
  intros H. unfold show_post. run_view. rewrite H.
  now rewrite logged_in_flag.
Qed.


(** C5: whatever post id the store can hold, a GET renders the post
    page with all the comments of the store, and whenever the post page
    is rendered, for any id and method, the comments handed to it are all
    the comments of the store; nothing filters them by post. *)
Theorem show_post_lists_all_comments
        (m : Method) (post_id : Z) (form : CommentForm) (v : bool) (c : Ctx) :
  (sqlite_integer post_id = true ->
   show_post GET post_id form v c
   = (inr (render_template
             (post_html (BlogPost_query_get post_id (db c))
                        (is_authenticated (session_user (session c) (db c)))
                        form (comments (db c)))), c))
  /\ (forall p li f cs c',
         show_post m post_id form v c
         = (inr (render_template (post_html p li f cs)), c') ->
         cs = comments (db c')).
Proof.
  split; [apply show_post_get|].
  intros p li f cs c'.
  destruct (sqlite_integer post_id) eqn:Hrange;
    [|rewrite show_post_overflow by exact Hrange; discriminate].
  destruct m;
    [rewrite show_post_get by exact Hrange; intros H; inversion H;
     reflexivity|].
  unfold show_post. run_view. rewrite Hrange. destruct v.
  - destruct (session_user (session c) (db c)) as [u|]; [|discriminate].
    destruct (BlogPost_query_get post_id (db c)) as [post|]; [|discriminate].
    cbn.
    destruct (flush _ _) as [[d' ks]|]; [|discriminate].
    cbn. intros H. inversion H. reflexivity.
  - intros H. inversion H. reflexivity.
Qed.

Lemma show_post_authenticated_run
      (post_id : Z) (form : CommentForm) (c : Ctx) (u : User.t)
      (post : BlogPost.t) :
  pending c = [] ->
  session_user (session c) (db c) = Some u ->
  BlogPost_query_get post_id (db c) = Some post ->
  show_post POST post_id form true c
  = (inr (render_template
            (post_html (Some post) true form
               (comments (db c)
                  ++ [Comment.mk (next_id (map Comment.id (comments (db c))))
                                 (Some (User.id u)) (Some (BlogPost.id post))
                                 (comment form)]))),
     {| session := session c;
        db := set_comments (count_commit (db c))
                (comments (db c)
                   ++ [Comment.mk (next_id (map Comment.id (comments (db c))))
                                  (Some (User.id u)) (Some (BlogPost.id post))
                                  (comment form)]);
        pending := [] |}).
Proof.
  intros Hfresh Hu Hpost.
  pose proof (BlogPost_query_get_some _ _ _ Hpost) as (_ & _ & Hrange).
  unfold show_post. run_view.
  rewrite Hrange, Hu, Hpost. cbn. rewrite Hfresh. reflexivity.
Qed.

(** C4: a validated comment submission on the page of an existing post
    by an authenticated user adds exactly one comment, whose author is
    that user and whose parent is the viewed post, and shows the page with
    it; by an anonymous user, on the page of any id the store can hold,
    it adds nothing, flashes the prompt, redirects to login, and its
    outcome does not depend on the text. *)
Theorem show_post_comment_submission
        (post_id : Z) (form : CommentForm) (c : Ctx)
        (Hfresh : pending c = []) :
  (forall u post,
      session_user (session c) (db c) = Some u ->
      BlogPost_query_get post_id (db c) = Some post ->
      let new_comment :=
        {| Comment.id := next_id (map Comment.id (comments (db c)));
           Comment.author_id := Some (User.id u);
           Comment.post_id := Some post_id;
           Comment.text := comment form |} in
      BlogPost.id post = post_id
      /\ show_post POST post_id form true c
         = (inr (render_template
                   (post_html (Some post) true form
                              (comments (db c) ++ [new_comment]))),
            {| session := session c;
               db := set_comments (count_commit (db c))
                                  (comments (db c) ++ [new_comment]);
               pending := [] |}))
  /\ (session_user (session c) (db c) = None ->
      sqlite_integer post_id = true ->
      show_post POST post_id form true c
      = (inr (redirect ep_login),
         flashed c "You need to login or register to comment." "message")
      /\ forall form',
          show_post POST post_id form' true c
          = show_post POST post_id form true c).
Proof.
  split.
  - intros u post Hu Hpost new_comment.
    pose proof (BlogPost_query_get_some _ _ _ Hpost) as (_ & Hid & _).
    split; [assumption|].
    rewrite (show_post_authenticated_run post_id form c u post Hfresh Hu Hpost).
    subst new_comment. rewrite Hid. reflexivity.
  - intros Hanon Hrange. unfold show_post, flashed. run_view.
    rewrite Hrange, Hanon. split; reflexivity.
Qed.

Lemma find_replaced (pid : Z) (post post' : BlogPost.t) (l : list BlogPost.t) :
  BlogPost.id post' = pid ->
  find (fun p => BlogPost.id p =? pid) l = Some post ->
  find (fun p => BlogPost.id p =? pid)
       (map (fun q => if BlogPost.id q =? BlogPost.id post' then post' else q) l)
  = Some post'.
Proof.
  intros Hid. induction l as [|q l IH]; cbn; [discriminate|].
  rewrite Hid.
  destruct (BlogPost.id q =? pid) eqn:Hq.
  - intros _. rewrite Hid, Z.eqb_refl. reflexivity.
  - rewrite Hq. rewrite Hid in IH. exact IH.
Qed.

Lemma find_not_replaced (pid j : Z) (post' : BlogPost.t) (l : list BlogPost.t) :
  BlogPost.id post' = pid -> j <> pid ->
  find (fun p => BlogPost.id p =? j)
       (map (fun q => if BlogPost.id q =? BlogPost.id post' then post' else q) l)
  = find (fun p => BlogPost.id p =? j) l.
Proof.
  intros Hid Hj. induction l as [|q l IH]; cbn; [reflexivity|].
  rewrite Hid. rewrite Hid in IH.
  destruct (BlogPost.id q =? pid) eqn:Hq.
  - apply Z.eqb_eq in Hq. rewrite Hid, Hq.
    destruct (pid =? j) eqn:Hpj; [apply Z.eqb_eq in Hpj; congruence|].
    exact IH.
  - destruct (BlogPost.id q =? j); [reflexivity | exact IH].
Qed.

(** C6: when add_new_post succeeds, the store has exactly one more post;
    its date is today's date printed as month name, two-digit day, comma,
    year, its author is the current user, and its title, subtitle, body
    and image URL are the submitted ones. *)
Theorem add_new_post_persists
        (env : Env) (m : Method) (form : CreatePostForm) (v : bool) (c c' : Ctx)
        (Hfresh : pending c = [])
        (Hcreated : add_new_post env m form v c
                    = (inr (redirect ep_get_all_posts), c')) :
  exists u,
    session_user (session c) (db c) = Some u
    /\ User.id u = 1
    /\ let new_post :=
         {| BlogPost.id := next_id (map BlogPost.id (blog_posts (db c)));
            BlogPost.author_id := Some (User.id u);
            BlogPost.title := form_title form;
            BlogPost.subtitle := form_subtitle form;
            BlogPost.date := strftime_B_d_Y (today env);
            BlogPost.body := form_body form;
            BlogPost.img_url := form_img_url form |} in
       blog_posts (db c') = blog_posts (db c) ++ [new_post]
       /\ BlogPost.date new_post
          = (month_name (month (today env)) ++ " "
               ++ zero_padded2 (day (today env)) ++ ", "
               ++ decimal (year (today env)))%string
       /\ users (db c') = users (db c)
       /\ comments (db c') = comments (db c)
       /\ session c' = session c.
Proof.
  unfold add_new_post in Hcreated. rewrite admin_only_run in Hcreated.
  unfold privileged in Hcreated.
  destruct (session_user (session c) (db c)) as [u|] eqn:Hu; [|discriminate].
  destruct (User.id u =? 1) eqn:Hadmin; [|discriminate].
  apply Z.eqb_eq in Hadmin.
  exists u. split; [reflexivity|]. split; [assumption|].
  revert Hcreated. unfold add_new_post_view. run_view. rewrite Hu.
  destruct m; [discriminate|]. destruct v; [|discriminate].
  cbn. rewrite Hfresh. cbn.
  destruct (existsb _ _); cbn; [discriminate|].
  intros H. inversion H. cbn. repeat split; reflexivity.
Qed.

(** C7: when edit_post succeeds, the post with that id has the
    submitted title, subtitle, image URL and body and its old id, author
    and date; every other post, the users and the comments are as before. *)
Theorem edit_post_overwrites
        (m : Method) (post_id : Z) (form : CreatePostForm) (v : bool)
        (c c' : Ctx) (k : Z)
        (Hfresh : pending c = [])
        (Hedited : edit_post m post_id form v c
                   = (inr (redirect (ep_show_post k)), c')) :
  exists post,
    BlogPost_query_get post_id (db c) = Some post
    /\ k = post_id
    /\ let post' :=
         {| BlogPost.id := BlogPost.id post;
            BlogPost.author_id := BlogPost.author_id post;
            BlogPost.title := form_title form;
            BlogPost.subtitle := form_subtitle form;
            BlogPost.date := BlogPost.date post;
            BlogPost.body := form_body form;
            BlogPost.img_url := form_img_url form |} in
       BlogPost_query_get post_id (db c') = Some post'
       /\ (forall j, j <> post_id ->
                     BlogPost_query_get j (db c') = BlogPost_query_get j (db c))
       /\ blog_posts (db c')
          = map (fun q => if BlogPost.id q =? post_id then post' else q)
                (blog_posts (db c))
       /\ users (db c') = users (db c)
       /\ comments (db c') = comments (db c)
       /\ session c' = session c.
Proof.
  unfold edit_post in Hedited. rewrite admin_only_run in Hedited.
  destruct (privileged c); [|discriminate].
  revert Hedited. unfold edit_post_view. run_view.
  destruct (sqlite_integer post_id) eqn:Hrange; [|discriminate].
  destruct (BlogPost_query_get post_id (db c)) as [post|] eqn:Hpost;
    [|discriminate].
  cbn. destruct (BlogPost_author post (db c)); [|discriminate].
  cbn. unfold prefill.
  destruct m; cbn; [discriminate|].
  destruct v; cbn; [|discriminate].
  rewrite Hfresh. cbn.
  destruct (existsb _ _); cbn; [discriminate|].
  pose proof (BlogPost_query_get_some _ _ _ Hpost) as (_ & Hid & _).
  rewrite BlogPost_query_get_find in Hpost by exact Hrange.
  intros H. injection H as Hk Hc'. subst c'. cbn.
  exists post. split; [reflexivity|]. split; [congruence|].
  split; [|split; [|split; [|repeat split]]].
  - rewrite BlogPost_query_get_find by exact Hrange. cbn.
    match goal with
    | |- _ = Some ?p =>
        apply (find_replaced post_id post p); [exact Hid | exact Hpost]
    end.
  - intros j Hj. unfold BlogPost_query_get.
    destruct (sqlite_integer j); [|reflexivity]. cbn.
    match goal with
    | |- find _ (map (fun q => if _ then ?p else q) _) = _ =>
        apply (find_not_replaced post_id j p); [exact Hid | exact Hj]
    end.
  - rewrite Hid. reflexivity.
Qed.

(** Creation and editing do succeed for the administrator when the
    title is free. *)
Lemma add_new_post_succeeds (env : Env) (form : CreatePostForm) (c : Ctx) :
  pending c = [] ->
  privileged c = true ->
  ~ In (form_title form) (map BlogPost.title (blog_posts (db c))) ->
  exists c',
    add_new_post env POST form true c = (inr (redirect ep_get_all_posts), c').
Proof.
  intros Hfresh Hadmin Hfree. unfold add_new_post.
  rewrite admin_only_run, Hadmin. unfold privileged in Hadmin.
  destruct (session_user (session c) (db c)) as [u|] eqn:Hu; [|discriminate].
  unfold add_new_post_view. run_view. rewrite Hu. cbn. rewrite Hfresh. cbn.
  destruct (existsb _ _) eqn:Htitle; cbn; [|eexists; reflexivity].
  exfalso. apply existsb_exists in Htitle. destruct Htitle as [q [Hq Ht]].
  apply String.eqb_eq in Ht. apply Hfree. rewrite <- Ht. now apply in_map.
Qed.

Lemma edit_post_succeeds
      (post_id : Z) (form : CreatePostForm) (c : Ctx) (post : BlogPost.t)
      (author : User.t) :
  pending c = [] ->
  privileged c = true ->
  BlogPost_query_get post_id (db c) = Some post ->
  BlogPost_author post (db c) = Some author ->
  (forall q, In q (blog_posts (db c)) -> BlogPost.id q <> post_id ->
             BlogPost.title q <> form_title form) ->
  exists c',
    edit_post POST post_id form true c
    = (inr (redirect (ep_show_post post_id)), c').
Proof.
  intros Hfresh Hadmin Hpost Hauthor Hfree. unfold edit_post.
  rewrite admin_only_run, Hadmin.
  pose proof (BlogPost_query_get_some _ _ _ Hpost) as (_ & Hid & Hrange).
  unfold edit_post_view. run_view. rewrite Hrange, Hpost. cbn.
  rewrite Hauthor. cbn. rewrite Hfresh. cbn.
  destruct (existsb _ _) eqn:Htitle; cbn;
    [|rewrite Hid; eexists; reflexivity].
  exfalso. apply existsb_exists in Htitle. destruct Htitle as [q [Hq Ht]].
  apply andb_true_iff in Ht. destruct Ht as [Hne Ht].
  apply negb_true_iff, Z.eqb_neq in Hne. apply String.eqb_eq in Ht.
  apply (Hfree q Hq); [congruence | exact Ht].
Qed.

Lemma in_Z_range (lo : Z) (n : nat) (k : Z) :
  lo <= k < lo + Z.of_nat n -> In k (Z_range lo n).
Proof.
  intros H. unfold Z_range. apply in_map_iff.
  exists (Z.to_nat (k - lo)). split; [lia|]. apply in_seq. lia.
Qed.

Lemma zero_padded2_length (n : Z) :
  0 <= n < 100 -> String.length (zero_padded2 n) = 2%nat.
Proof.
  intros H.
  assert (forallb (fun k => Nat.eqb (String.length (zero_padded2 k)) 2)
                  (Z_range 0 (Z.to_nat 100)) = true) as Hall
      by (vm_compute; reflexivity).
  rewrite forallb_forall in Hall.
  apply Nat.eqb_eq, Hall, in_Z_range. lia.
Qed.

Lemma decimal_year_length (n : Z) :
  1000 <= n < 10000 -> String.length (decimal n) = 4%nat.
Proof.
  intros H.
  assert (forallb (fun k => Nat.eqb (String.length (decimal k)) 4)
                  (Z_range 1000 (Z.to_nat 9000)) = true) as Hall
      by (vm_compute; reflexivity).
  rewrite forallb_forall in Hall.
  apply Nat.eqb_eq, Hall, in_Z_range. lia.
Qed.

Example strftime_sample :
  strftime_B_d_Y {| year := 2026; month := 11; day := 3 |} = "November 03, 2026".
Proof. reflexivity. Qed.

Lemma next_id_above (ids : list Z) (k : Z) : In k ids -> k < next_id ids.
Proof.
  unfold next_id. induction ids as [|i ids IH]; cbn [fold_right In];
    [contradiction|].
  intros [->|Hin]; [lia|]. specialize (IH Hin). lia.
Qed.

Lemma find_app_absent {A} (f : A -> bool) (l : list A) (r : A) :
  (forall x, In x l -> f x = false) ->
  find f (l ++ [r]) = if f r then Some r else None.
Proof.
  induction l as [|x l IH]; intros Hl; cbn; [reflexivity|].
  rewrite (Hl x (or_introl eq_refl)). apply IH.
  intros y Hy. apply Hl. now right.
Qed.

Lemma find_app_last {A} (key : A -> Z) (rows : list A) (r : A) :
  key r = next_id (map key rows) ->
  find (fun x => key x =? key r) (rows ++ [r]) = Some r.
Proof.
  intros Hkey. rewrite find_app_absent.
  - now rewrite Z.eqb_refl.
  - intros x Hx. apply Z.eqb_neq.
    pose proof (next_id_above (map key rows) (key x) (in_map key _ _ Hx)). lia.
Qed.

Lemma existsb_find {A} (f : A -> bool) (l : list A) :
  existsb f l = match find f l with Some _ => true | None => false end.
Proof.
  induction l as [|x l IH]; cbn; [reflexivity|].
  destruct (f x); [reflexivity | exact IH].
Qed.

Lemma find_email_none (e : string) (us : list User.t) :
  find (fun u => String.eqb (User.email u) e) us = None
  <-> ~ In e (map User.email us).
Proof.
  split.
  - intros Hnone Hin. apply in_map_iff in Hin. destruct Hin as [u [He Hu]].
    pose proof (find_none _ _ Hnone u Hu) as Hf. cbn in Hf.
    rewrite He, String.eqb_refl in Hf. discriminate.
  - intros Hnot. destruct (find _ us) as [u|] eqn:Hf; [|reflexivity].
    apply find_some in Hf. destruct Hf as [Hu He].
    apply String.eqb_eq in He. exfalso. apply Hnot.
    rewrite <- He. now apply in_map.
Qed.

Lemma gen_salt_from_length (random : nat -> nat) (start n : nat) :
  String.length (gen_salt_from random start n) = n.
Proof.
  revert start. induction n as [|n IH]; intros start; cbn; [reflexivity|].
  now rewrite IH.
Qed.

Lemma NoDup_map_eq {A B} (f : A -> B) (l : list A) (a b : A) :
  NoDup (map f l) -> In a l -> In b l -> f a = f b -> a = b.
Proof.
  induction l as [|x l IH]; cbn; [contradiction|].
  intros Hnd Ha Hb Hf. inversion Hnd as [|y ys Hnotin Hnd']; subst.
  destruct Ha as [->|Ha], Hb as [->|Hb].
  - reflexivity.
  - exfalso. apply Hnotin. rewrite Hf. now apply in_map.
  - exfalso. apply Hnotin. rewrite <- Hf. now apply in_map.
  - now apply IH.
Qed.

Lemma find_by_id_unique {A} (key : A -> Z) (rows : list A) (r : A) :
  NoDup (map key rows) -> In r rows ->
  find (fun x => key x =? key r) rows = Some r.
Proof.
  intros Hnd Hin.
  destruct (find (fun x => key x =? key r) rows) as [x|] eqn:Hf.
  - apply find_id_some in Hf. destruct Hf as [Hx Hk].
    f_equal. now apply (NoDup_map_eq key rows).
  - pose proof (find_none _ _ Hf r Hin) as Hr. cbn in Hr.
    rewrite Z.eqb_refl in Hr. discriminate.
Qed.

Lemma secrets_choice_no_dollar (r : nat) :
  Ascii.eqb (secrets_choice r SALT_CHARS) "$" = false.
Proof.
  assert (forallb (fun k => negb (Ascii.eqb (secrets_choice k SALT_CHARS) "$"))
                  (seq 0 (String.length SALT_CHARS)) = true) as Hall
      by (vm_compute; reflexivity).
  rewrite forallb_forall in Hall.
  assert (secrets_choice r SALT_CHARS
          = secrets_choice (r mod String.length SALT_CHARS) SALT_CHARS) as ->.
  { unfold secrets_choice. rewrite Nat.Div0.mod_mod. reflexivity. }
  apply negb_true_iff, Hall, in_seq. split; [apply Nat.le_0_l|].
  apply Nat.mod_upper_bound. discriminate.
Qed.

Lemma gen_salt_no_dollar (random : nat -> nat) (start n : nat) :
  has_dollar (gen_salt_from random start n) = false.
Proof.
  revert start. induction n as [|n IH]; intros start; cbn [gen_salt_from
    has_dollar]; [reflexivity|].
  now rewrite secrets_choice_no_dollar, IH.
Qed.

Lemma split_dollar_append (s rest : string) :
  has_dollar s = false ->
  split_dollar (s ++ "$" ++ rest)%string = Some (s, rest).
Proof.
  induction s as [|a s IH]; cbn in *; intros H; [reflexivity|].
  apply orb_false_iff in H. destruct H as [Ha Hs].
  now rewrite Ha, IH.
Qed.

Section Accounts.

Variable hash_internal : string -> string -> string -> string.

Lemma register_duplicate_run (env : Env) (form : RegisterForm) (c : Ctx) :
  In (reg_email form) (map User.email (users (db c))) ->
  register hash_internal env POST form true c
  = (inr (redirect ep_login),
     flashed c "You've already signed up with that email. Login instead"
             "message").
Proof.
  intros Hin. unfold register. run_view.
  unfold User_query_filter_by_email_first.
  match goal with
  | |- context [find ?f ?l] => destruct (find f l) as [u|] eqn:Hf
  end; [reflexivity|].
  apply find_email_none in Hf. contradiction.
Qed.

Lemma register_new_run (env : Env) (form : RegisterForm) (c : Ctx) :
  pending c = [] ->
  ~ In (reg_email form) (map User.email (users (db c))) ->
  let new_user :=
    {| User.id := next_id (map User.id (users (db c)));
       User.email := reg_email form;
       User.password :=
         generate_password_hash hash_internal env (reg_password form)
                                "pbkdf2:sha256:5" 8;
       User.name := reg_name form |} in
  register hash_internal env POST form true c
  = (inr (redirect ep_get_all_posts),
     {| session := {| user_id := Some (User.id new_user);
                      flashes := flashes (session c) |};
        db := set_users (count_commit (db c)) (users (db c) ++ [new_user]);
        pending := [] |}).
Proof.
  intros Hfresh Hnew new_user. unfold register. run_view.
  unfold User_query_filter_by_email_first.
  pose proof (proj2 (find_email_none _ _) Hnew) as Hf. rewrite Hf.
  cbn. rewrite Hfresh. cbn. rewrite existsb_find, Hf. reflexivity.
Qed.

(** C2: a validated registration with a new email appends exactly one
    user, whose password is the method, an 8-character salt and the
    5-round PBKDF2 digest of the given password, and leaves the session
    logged in as that user; registering that email again, or any email
    already taken, only flashes a message and redirects to login. *)
Theorem register_creates_one_user
        (env : Env) (form : RegisterForm) (c : Ctx)
        (Hfresh : pending c = []) :
  let method := "pbkdf2:sha256:5" in
  let salt := gen_salt env 8 in
  let new_user :=
    {| User.id := next_id (map User.id (users (db c)));
       User.email := reg_email form;
       User.password :=
         (method ++ "$" ++ salt ++ "$"
            ++ hash_internal method salt (reg_password form))%string;
       User.name := reg_name form |} in
  let c1 :=
    {| session := {| user_id := Some (User.id new_user);
                     flashes := flashes (session c) |};
       db := set_users (count_commit (db c)) (users (db c) ++ [new_user]);
       pending := [] |} in
  let already :=
    "You've already signed up with that email. Login instead" in
  (~ In (reg_email form) (map User.email (users (db c))) ->
   register hash_internal env POST form true c
   = (inr (redirect ep_get_all_posts), c1)
   /\ String.length salt = 8%nat
   /\ session_user (session c1) (db c1) = Some new_user
   /\ forall env' form',
       reg_email form' = reg_email form ->
       register hash_internal env' POST form' true c1
       = (inr (redirect ep_login), flashed c1 already "message"))
  /\ (In (reg_email form) (map User.email (users (db c))) ->
      register hash_internal env POST form true c
      = (inr (redirect ep_login), flashed c already "message")).
Proof.
  intros method salt new_user c1 already.
  split; [|apply register_duplicate_run].
  intros Hnew. split; [|split; [|split]].
  - apply (register_new_run env form c Hfresh Hnew).
  - apply gen_salt_from_length.
  - unfold session_user, load_user, User_query_get. cbn.
    apply (find_app_last User.id (users (db c)) new_user). reflexivity.
  - intros env' form' He. apply register_duplicate_run. rewrite He. cbn.
    rewrite map_app. apply in_or_app. right. now left.
Qed.

(** The hash that [register] stores accepts the password it was made
    from. *)
Lemma check_generated_hash (env : Env) (password : string) (salt_length : nat) :
  check_password_hash hash_internal
    (generate_password_hash hash_internal env password
                            "pbkdf2:sha256:5" salt_length)
    password = true.
Proof.
  unfold check_password_hash, generate_password_hash.
  rewrite split_dollar_append by reflexivity.
  rewrite split_dollar_append by apply gen_salt_no_dollar.
  apply String.eqb_refl.
Qed.

(** C3: a validated login redirects to the index, logged in as the
    user, exactly when some user has that email and a hash the password
    checks against; otherwise it flashes an error, shows the login page
    again, and leaves the session's user and the store as they were. *)
Theorem login_iff_credentials
        (form : LoginForm) (c : Ctx)
        (Hemail : NoDup (map User.email (users (db c))))
        (Hid : NoDup (map User.id (users (db c)))) :
  let matches (u : User.t) :=
    In u (users (db c))
    /\ User.email u = login_email form
    /\ check_password_hash hash_internal (User.password u)
                           (login_password form) = true in
  let r := login hash_internal POST form true c in
  ((exists u, matches u) <-> fst r = inr (redirect ep_get_all_posts))
  /\ (forall u,
         matches u ->
         r = (inr (redirect ep_get_all_posts),
              {| session := {| user_id := Some (User.id u);
                               flashes := flashes (session c) |};
                 db := db c; pending := pending c |})
         /\ session_user (session (snd r)) (db (snd r)) = Some u)
  /\ (~ (exists u, matches u) ->
      (r = (inr (render_template (login_html form)),
            flashed c "Invalid password." "error")
       \/ r = (inr (render_template (login_html form)),
               flashed c "This email does not exist. Please try again."
                       "error"))
      /\ user_id (session (snd r)) = user_id (session c)
      /\ db (snd r) = db c).
Proof.
  intros matches r.
  assert (forall u, matches u ->
                    User_query_filter_by_email_first (login_email form) (db c)
                    = Some u) as Hfound.
  { intros u (Hin & He & _). unfold User_query_filter_by_email_first.
    destruct (find _ (users (db c))) as [u0|] eqn:Hf.
    - apply find_some in Hf. destruct Hf as [Hin0 He0].
      apply String.eqb_eq in He0. f_equal.
      apply (NoDup_map_eq User.email (users (db c))); congruence.
    - apply find_email_none in Hf. exfalso. apply Hf.
      rewrite <- He. now apply in_map. }
  assert (forall u, matches u ->
                    r = (inr (redirect ep_get_all_posts),
                         {| session := {| user_id := Some (User.id u);
                                          flashes := flashes (session c) |};
                            db := db c; pending := pending c |})) as Hok.
  { intros u Hu. pose proof (Hfound u Hu) as Hq.
    destruct Hu as (Hin & He & Hpw).
    subst r. unfold login. run_view. rewrite Hq, Hpw. reflexivity. }
  assert (~ (exists u, matches u) ->
          r = (inr (render_template (login_html form)),
               flashed c "Invalid password." "error")
          \/ r = (inr (render_template (login_html form)),
                  flashed c "This email does not exist. Please try again."
                          "error")) as Hfail.
  { intros Hnone. subst r. unfold login, flashed. run_view.
    destruct (User_query_filter_by_email_first (login_email form) (db c))
      as [u|] eqn:Hq; [|now right].
    destruct (check_password_hash hash_internal (User.password u)
                                  (login_password form)) eqn:Hpw;
      [|now left].
    exfalso. apply Hnone. exists u.
    apply find_some in Hq. destruct Hq as [Hin He].
    apply String.eqb_eq in He. now repeat split. }
  split; [|split].
  - split.
    + intros [u Hu]. rewrite (Hok u Hu). reflexivity.
    + intros Hr.
      destruct (User_query_filter_by_email_first (login_email form) (db c))
        as [u|] eqn:Hq.
      * destruct (check_password_hash hash_internal (User.password u)
                                      (login_password form)) eqn:Hpw.
        -- exists u. apply find_some in Hq. destruct Hq as [Hin He].
           apply String.eqb_eq in He. now repeat split.
        -- exfalso. revert Hr. subst r. unfold login. run_view.
           rewrite Hq, Hpw. discriminate.
      * exfalso. revert Hr. subst r. unfold login. run_view.
        rewrite Hq. discriminate.
  - intros u Hu. split; [now apply Hok|].
    rewrite (Hok u Hu). cbn. unfold session_user, load_user, User_query_get.
    cbn. destruct Hu as (Hin & _). now apply find_by_id_unique.
  - intros Hnone. destruct (Hfail Hnone) as [Hr|Hr]; rewrite Hr;
      (split; [first [now left | now right] | split; reflexivity]).
Qed.

End Accounts.


(** ** Every request changes the database in one of seven ways *)

Lemma existsb_false {A} (f : A -> bool) (l : list A) :
  existsb f l = false -> forall x, In x l -> f x = false.
Proof.
  intros H x Hx. destruct (f x) eqn:Hf; [|reflexivity].
  rewrite <- H. symmetry. apply existsb_exists. now exists x.
Qed.

Lemma get_all_posts_store (c : Ctx) : db (snd (get_all_posts c)) = db c.
Proof. reflexivity. Qed.

Lemma about_store (c : Ctx) : db (snd (about c)) = db c.
Proof. reflexivity. Qed.

Lemma contact_store (c : Ctx) : db (snd (contact c)) = db c.
Proof. reflexivity. Qed.

Lemma logout_store (c : Ctx) : db (snd (logout c)) = db c.
Proof.
  unfold logout. run_view.
  destruct (session_user (session c) (db c)); reflexivity.
Qed.

Lemma show_post_store_step m post_id form v (c : Ctx) :
  pending c = [] -> store_step (db c) (db (snd (show_post m post_id form v c))).
Proof.
  intros Hfresh.
  destruct (sqlite_integer post_id) eqn:Hrange;
    [|rewrite show_post_overflow by exact Hrange; apply step_none].
  destruct m; [rewrite show_post_get by exact Hrange; apply step_none|].
  destruct v;
    [|unfold show_post; run_view; rewrite Hrange; apply step_none].
  destruct (session_user (session c) (db c)) as [u|] eqn:Hu.
  - destruct (BlogPost_query_get post_id (db c)) as [post|] eqn:Hpost.
    + rewrite (show_post_authenticated_run post_id form c u post Hfresh Hu Hpost).
      cbn [snd db].
      apply session_user_in in Hu. apply BlogPost_query_get_some in Hpost.
      now apply step_new_comment.
    + unfold show_post. run_view. rewrite Hrange, Hu, Hpost.
      apply step_none.
  - unfold show_post. run_view. rewrite Hrange, Hu. apply step_none.
Qed.

Lemma admin_only_store_step {A} (view : M A) (c : Ctx) :
  store_step (db c) (db (snd (view c))) ->
  store_step (db c) (db (snd (admin_only view c))).
Proof.
  intros H. rewrite admin_only_run.
  destruct (privileged c); [exact H | apply step_none].
Qed.

Lemma add_new_post_store_step env m form v (c : Ctx) :
  pending c = [] ->
  store_step (db c) (db (snd (add_new_post env m form v c))).
Proof.
  intros Hfresh. unfold add_new_post. rewrite admin_only_run.
  unfold privileged.
  destruct (session_user (session c) (db c)) as [u|] eqn:Hu;
    [|apply step_none].
  destruct (User.id u =? 1) eqn:Hadmin; [|apply step_none].
  apply Z.eqb_eq in Hadmin.
  unfold add_new_post_view. run_view. rewrite Hu.
  destruct m; [apply step_none|]. destruct v; [|apply step_none].
  cbn. rewrite Hfresh. cbn.
  destruct (existsb _ _) eqn:Htitle; cbn; [apply step_rolled_back|].
  apply session_user_in in Hu. destruct Hu as [Hin _].
  apply step_new_post; [assumption | assumption |].
  intros Ht. apply in_map_iff in Ht. destruct Ht as [q [Hq Hqin]].
  pose proof (existsb_false _ _ Htitle q Hqin) as Hf. cbn in Hf.
  rewrite Hq, String.eqb_refl in Hf. discriminate.
Qed.

Lemma edit_post_store_step m post_id form v (c : Ctx) :
  pending c = [] ->
  store_step (db c) (db (snd (edit_post m post_id form v c))).
Proof.
  intros Hfresh. unfold edit_post. apply admin_only_store_step.
  unfold edit_post_view. run_view.
  destruct (sqlite_integer post_id); [|apply step_none].
  destruct (BlogPost_query_get post_id (db c)) as [post|] eqn:Hpost;
    [|apply step_none].
  cbn. destruct (BlogPost_author post (db c)); [|apply step_none].
  cbn. unfold prefill.
  destruct m; cbn; [apply step_none|].
  destruct v; cbn; [|apply step_none].
  rewrite Hfresh. cbn.
  destruct (existsb _ _) eqn:Htitle; cbn; [apply step_rolled_back|].
  apply BlogPost_query_get_some in Hpost. destruct Hpost as [Hin _].
  match goal with
  | |- store_step _ (set_blog_posts _
                       (map (fun q => if _ then ?p' else q) _)) =>
      apply (step_edit (db c) post p')
  end; try reflexivity; [assumption|].
  intros q Hq Hne Heq.
  pose proof (existsb_false _ _ Htitle q Hq) as Hf. cbn in Hf.
  cbn in Hne, Heq.
  apply Z.eqb_neq in Hne. rewrite Hne, Heq, String.eqb_refl in Hf.
  discriminate.
Qed.

Lemma delete_post_store_step post_id (c : Ctx) :
  pending c = [] ->
  store_step (db c) (db (snd (delete_post post_id c))).
Proof.
  intros Hfresh. unfold delete_post. apply admin_only_store_step.
  unfold delete_post_view. run_view.
  destruct (sqlite_integer post_id); [|apply step_none].
  destruct (BlogPost_query_get post_id (db c)) as [post|] eqn:Hpost;
    [|apply step_none].
  cbn. rewrite Hfresh. cbn.
  apply BlogPost_query_get_some in Hpost. destruct Hpost as [Hin _].
  now apply step_delete.
Qed.

Lemma methods_store_step {A} allowed m (view : M A) (c : Ctx) :
  store_step (db c) (db (snd (view c))) ->
  store_step (db c) (db (snd (methods allowed m view c))).
Proof.
  intros H. unfold methods. destruct (existsb _ allowed); [exact H|].
  apply step_none.
Qed.

Lemma int_converter_store_step {A} post_id (view : M A) (c : Ctx) :
  store_step (db c) (db (snd (view c))) ->
  store_step (db c) (db (snd (int_converter post_id view c))).
Proof.
  intros H. unfold int_converter. destruct (post_id <? 0); [|exact H].
  apply step_none.
Qed.


Section Requests.

Variable hash_internal : string -> string -> string -> string.

Lemma register_store_step env m form v (c : Ctx) :
  pending c = [] ->
  store_step (db c) (db (snd (register hash_internal env m form v c))).
Proof.
  intros Hfresh.
  destruct m; [apply step_none|]. destruct v; [|apply step_none].
  destruct (in_dec string_dec (reg_email form)
                   (map User.email (users (db c)))) as [Hin|Hnew].
  - rewrite (register_duplicate_run hash_internal env form c Hin).
    apply step_none.
  - rewrite (register_new_run hash_internal env form c Hfresh Hnew).
    cbn [snd db]. now apply step_new_user.
Qed.

Lemma login_store (m : Method) form v (c : Ctx) :
  db (snd (login hash_internal m form v c)) = db c.
Proof.
  unfold login. run_view.
  destruct m; [reflexivity|]. destruct v; [|reflexivity].
  destruct (User_query_filter_by_email_first _ _) as [u|]; [|reflexivity].
  destruct (check_password_hash _ _ _); reflexivity.
Qed.

Lemma dispatch_store_step env r (c : Ctx) :
  pending c = [] ->
  store_step (db c) (db (snd (dispatch hash_internal env r c))).
Proof.
  intros Hfresh. unfold dispatch.
  destruct (route r);
    repeat first [apply int_converter_store_step | apply methods_store_step].
  - rewrite get_all_posts_store. apply step_none.
  - now apply register_store_step.
  - rewrite login_store. apply step_none.
  - rewrite logout_store. apply step_none.
  - now apply show_post_store_step.
  - rewrite about_store. apply step_none.
  - rewrite contact_store. apply step_none.
  - now apply add_new_post_store_step.
  - now apply edit_post_store_step.
  - now apply delete_post_store_step.
Qed.

Lemma serve_store env client r (s : System) :
  store (snd (serve hash_internal env client r s))
  = db (snd (dispatch hash_internal env r (ctx_of s client))).
Proof.
  unfold serve, ctx_of. destruct (dispatch _ _ _ _); reflexivity.
Qed.

Lemma serve_store_step env client r (s : System) :
  store_step (store s) (store (snd (serve hash_internal env client r s))).
Proof.
  rewrite serve_store. now apply (dispatch_store_step env r (ctx_of s client)).
Qed.

Lemma store_step_commits (d d' : Database) :
  store_step d d' -> (commits d <= commits d' <= S (commits d))%nat.
Proof. intros H. destruct H; cbn; lia. Qed.

End Requests.


(** ** The invariants are kept by every request *)

Lemma NoDup_snoc {A} (l : list A) (x : A) :
  NoDup l -> ~ In x l -> NoDup (l ++ [x]).
Proof.
  induction l as [|y l IH]; cbn; intros Hnd Hx.
  - constructor; [intros [] | constructor].
  - inversion Hnd as [|z zs Hy Hnd']; subst. constructor.
    + intros Hin. apply in_app_or in Hin. destruct Hin as [Hin|[->|[]]].
      * contradiction.
      * apply Hx. now left.
    + apply IH; [assumption|]. intros Hin. apply Hx. now right.
Qed.

Lemma next_id_fresh (ids : list Z) : ~ In (next_id ids) ids.
Proof. intros H. apply next_id_above in H. lia. Qed.

Lemma NoDup_map_snoc {A B} (f : A -> B) (l : list A) (x : A) :
  NoDup (map f l) -> ~ In (f x) (map f l) -> NoDup (map f (l ++ [x])).
Proof. intros Hnd Hx. rewrite map_app. now apply NoDup_snoc. Qed.

Lemma NoDup_map_filter {A B} (f : A -> B) (g : A -> bool) (l : list A) :
  NoDup (map f l) -> NoDup (map f (filter g l)).
Proof.
  induction l as [|x l IH]; cbn; intros Hnd; [constructor|].
  inversion Hnd as [|y ys Hx Hnd']; subst.
  destruct (g x); cbn; [|now apply IH].
  constructor; [|now apply IH].
  intros Hin. apply Hx. apply in_map_iff in Hin.
  destruct Hin as [z [Hz Hzin]]. apply filter_In in Hzin.
  rewrite <- Hz. apply in_map. tauto.
Qed.

Lemma map_id_replace (p' : BlogPost.t) (l : list BlogPost.t) :
  map BlogPost.id
      (map (fun q => if BlogPost.id q =? BlogPost.id p' then p' else q) l)
  = map BlogPost.id l.
Proof.
  induction l as [|q l IH]; cbn; [reflexivity|].
  rewrite IH. destruct (BlogPost.id q =? BlogPost.id p') eqn:Hq;
    [|reflexivity].
  apply Z.eqb_eq in Hq. now rewrite Hq.
Qed.

Lemma replace_absent (p' : BlogPost.t) (l : list BlogPost.t) :
  ~ In (BlogPost.id p') (map BlogPost.id l) ->
  map (fun q => if BlogPost.id q =? BlogPost.id p' then p' else q) l = l.
Proof.
  induction l as [|q l IH]; cbn; intros Hnot; [reflexivity|].
  destruct (BlogPost.id q =? BlogPost.id p') eqn:Hq.
  - apply Z.eqb_eq in Hq. exfalso. apply Hnot. now left.
  - rewrite IH; [reflexivity|]. intros Hin. apply Hnot. now right.
Qed.

Lemma in_replace (p' q' : BlogPost.t) (l : list BlogPost.t) :
  In q' (map (fun q => if BlogPost.id q =? BlogPost.id p' then p' else q) l) ->
  q' = p' \/ (In q' l /\ BlogPost.id q' <> BlogPost.id p').
Proof.
  intros Hin. apply in_map_iff in Hin. destruct Hin as [q [Hq Hqin]].
  destruct (BlogPost.id q =? BlogPost.id p') eqn:Hid.
  - left. now symmetry.
  - right. subst q'. split; [assumption | now apply Z.eqb_neq].
Qed.

Lemma NoDup_titles_replace (p' : BlogPost.t) (l : list BlogPost.t) :
  NoDup (map BlogPost.id l) ->
  NoDup (map BlogPost.title l) ->
  (forall q, In q l -> BlogPost.id q <> BlogPost.id p' ->
             BlogPost.title q <> BlogPost.title p') ->
  NoDup (map BlogPost.title
             (map (fun q => if BlogPost.id q =? BlogPost.id p' then p' else q) l)).
Proof.
  induction l as [|x l IH]; cbn; intros Hids Htitles Hother; [constructor|].
  inversion Hids as [|y ys Hx Hids']; subst.
  inversion Htitles as [|y ys Hxt Htitles']; subst.
  destruct (BlogPost.id x =? BlogPost.id p') eqn:Hid.
  - apply Z.eqb_eq in Hid. rewrite Hid in Hx.
    rewrite (replace_absent p' l Hx). constructor; [|assumption].
    intros Hin. apply in_map_iff in Hin. destruct Hin as [q [Hq Hqin]].
    apply (Hother q); [now right | | assumption].
    intros Heq. apply Hx. rewrite <- Heq. now apply in_map.
  - apply Z.eqb_neq in Hid. constructor.
    + intros Hin. apply in_map_iff in Hin. destruct Hin as [q' [Hq' Hin]].
      apply in_replace in Hin. destruct Hin as [->|[Hin _]].
      * apply (Hother x); [now left | assumption | now symmetry].
      * apply Hxt. rewrite <- Hq'. now apply in_map.
    + apply IH; [assumption | assumption |].
      intros q Hq. apply Hother. now right.
Qed.

Lemma hd_error_snoc {A} (l : list A) (x y : A) :
  hd_error (l ++ [x]) = Some y -> hd_error l = Some y \/ (l = [] /\ y = x).
Proof.
  destruct l as [|z l]; cbn; intros H; [right|left; assumption].
  split; [reflexivity | congruence].
Qed.

Lemma well_formed_empty : well_formed empty_db.
Proof.
  constructor; cbn; try constructor; try contradiction; discriminate.
Qed.

Lemma store_step_well_formed (d d' : Database) :
  well_formed d -> store_step d d' -> well_formed d'.
Proof.
  intros Hwf Hstep.
  destruct Hwf as [Huid Hpid Hcid Hfirst Hemail Htitle Hpa Hca Hcp].
  destruct Hstep as [ | | e pw n Hnew | u t st dt b img Hu Hadmin Hnew
                    | u p txt Hu Hp | p p' Hp Hid Hauth Hother | p Hp ].
  - constructor; assumption.
  - constructor; assumption.
  - constructor; cbn; try assumption.
    + apply NoDup_map_snoc; [assumption | apply next_id_fresh].
    + intros u Hhd. apply hd_error_snoc in Hhd.
      destruct Hhd as [Hhd|[Hnil ->]]; [now apply Hfirst|].
      rewrite Hnil. reflexivity.
    + apply NoDup_map_snoc; assumption.
    + intros p Hp. destruct (Hpa p Hp) as [u [Hu Ha]].
      exists u. split; [apply in_or_app; now left | assumption].
    + intros c Hc. destruct (Hca c Hc) as [u [Hu Ha]].
      exists u. split; [apply in_or_app; now left | assumption].
  - constructor; cbn; try assumption.
    + apply NoDup_map_snoc; [assumption | apply next_id_fresh].
    + apply NoDup_map_snoc; assumption.
    + intros p Hp. apply in_app_or in Hp. destruct Hp as [Hp|[<-|[]]].
      * now apply Hpa.
      * exists u. split; [assumption | reflexivity].
    + intros c Hc. destruct (Hcp c Hc) as [Hnone|[p [Hp Href]]];
        [now left | right].
      exists p. split; [apply in_or_app; now left | assumption].
  - constructor; cbn; try assumption.
    + apply NoDup_map_snoc; [assumption | apply next_id_fresh].
    + intros c Hc. apply in_app_or in Hc. destruct Hc as [Hc|[<-|[]]].
      * now apply Hca.
      * exists u. split; [assumption | reflexivity].
    + intros c Hc. apply in_app_or in Hc. destruct Hc as [Hc|[<-|[]]].
      * now apply Hcp.
      * right. exists p. split; [assumption | reflexivity].
  - constructor; cbn; try assumption.
    + now rewrite map_id_replace.
    + now apply NoDup_titles_replace.
    + intros q Hq. apply in_replace in Hq. destruct Hq as [->|[Hq _]].
      * rewrite Hauth. now apply Hpa.
      * now apply Hpa.
    + intros c Hc. destruct (Hcp c Hc) as [Hnone|[q [Hq Href]]];
        [now left | right].
      exists (if BlogPost.id q =? BlogPost.id p' then p' else q). split.
      * apply in_map_iff. now exists q.
      * rewrite Href. destruct (BlogPost.id q =? BlogPost.id p') eqn:Hqp;
          [|reflexivity].
        apply Z.eqb_eq in Hqp. now rewrite Hqp.
  - constructor; cbn; try assumption.
    + now apply NoDup_map_filter.
    + unfold nullify_parent. rewrite map_map.
      erewrite map_ext; [exact Hcid|].
      intros c. cbn. destruct (Comment.post_id c) as [k|]; [|reflexivity].
      destruct (k =? BlogPost.id p); reflexivity.
    + now apply NoDup_map_filter.
    + intros q Hq. apply filter_In in Hq. now apply Hpa.
    + intros c' Hc'. apply in_map_iff in Hc'. destruct Hc' as [c [<- Hc]].
      destruct (Hca c Hc) as [u [Hu Ha]]. exists u. split; [assumption|].
      unfold nullify_parent. destruct (Comment.post_id c) as [k|];
        [|assumption].
      destruct (k =? BlogPost.id p); assumption.
    + intros c' Hc'. apply in_map_iff in Hc'. destruct Hc' as [c [<- Hc]].
      unfold nullify_parent.
      destruct (Comment.post_id c) as [k|] eqn:Hk; [|left; assumption].
      destruct (k =? BlogPost.id p) eqn:Hkp; [now left | right].
      destruct (Hcp c Hc) as [Hnone|[q [Hq Href]]]; [congruence|].
      exists q. split; [|assumption].
      apply filter_In. split; [assumption|].
      rewrite Hk in Href. injection Href as ->. now rewrite Hkp.
Qed.


Lemma filter_key_one {A} (key : A -> Z) (rows : list A) (r : A) :
  NoDup (map key rows) -> In r rows ->
  List.length (filter (fun x => key x =? key r) rows) = 1%nat.
Proof.
  induction rows as [|x l IH]; cbn; intros Hnd Hin; [contradiction|].
  inversion Hnd as [|y ys Hx Hnd']; subst.
  destruct (key x =? key r) eqn:Hk.
  - apply Z.eqb_eq in Hk. cbn. f_equal.
    assert (filter (fun y => key y =? key r) l = []) as ->; [|reflexivity].
    destruct (filter (fun y => key y =? key r) l) as [|y ys] eqn:Hf;
      [reflexivity|].
    assert (In y (filter (fun y => key y =? key r) l)) as Hy
        by (rewrite Hf; now left).
    apply filter_In in Hy. destruct Hy as [Hy Hyk]. apply Z.eqb_eq in Hyk.
    exfalso. apply Hx. rewrite Hk, <- Hyk. now apply in_map.
  - destruct Hin as [->|Hin]; [rewrite Z.eqb_refl in Hk; discriminate|].
    now apply IH.
Qed.

Lemma references_one_intro {A} (key : A -> Z) (rows : list A) (fk : option Z) :
  NoDup (map key rows) ->
  (exists r, In r rows /\ fk = Some (key r)) ->
  references_one key rows fk.
Proof.
  intros Hnd [r [Hin Hfk]]. exists (key r). split; [assumption|].
  now apply filter_key_one.
Qed.

Lemma well_formed_store_invariants (d : Database) :
  well_formed d -> store_invariants d.
Proof.
  intros [Huid Hpid Hcid Hfirst Hemail Htitle Hpa Hca Hcp].
  constructor; try assumption.
  - intros c Hc. apply references_one_intro; auto.
  - intros c Hc. destruct (Hcp c Hc) as [Hnone|Href]; [now left | right].
    apply references_one_intro; auto.
  - intros p Hp. apply references_one_intro; auto.
Qed.

Section Reachability.

Variable hash_internal : string -> string -> string -> string.

Lemma reachable_well_formed (s : System) :
  reachable hash_internal s -> well_formed (store s).
Proof.
  induction 1 as [|env client r s Hs IH].
  - apply well_formed_empty.
  - apply (store_step_well_formed (store s)); [exact IH|].
    apply serve_store_step.
Qed.

(** C1: the three admin-gated views run their body exactly when the
    session is authenticated and its user's id is 1, and otherwise
    abort with 403 and leave the context as it was; in a running
    application id 1 belongs to the first user that registered. *)
Theorem admin_gate :
  (forall env m form v post_id c,
      add_new_post env m form v c
      = (if privileged c then add_new_post_view env m form v c
         else (inl (HTTPException 403), c))
      /\ edit_post m post_id form v c
         = (if privileged c then edit_post_view m post_id form v c
            else (inl (HTTPException 403), c))
      /\ delete_post post_id c
         = (if privileged c then delete_post_view post_id c
            else (inl (HTTPException 403), c)))
  /\ (forall c,
         privileged c = true
         <-> exists u, session_user (session c) (db c) = Some u
                       /\ User.id u = 1)
  /\ (forall s client,
         reachable hash_internal s ->
         privileged (ctx_of s client) = true ->
         session_user (cookies s client) (store s)
         = hd_error (users (store s))).
Proof.
  split; [|split].
  - intros env m form v post_id c. repeat split; apply admin_only_run.
  - intros c. unfold privileged.
    destruct (session_user (session c) (db c)) as [u|].
    + split.
      * intros H. exists u. split; [reflexivity | now apply Z.eqb_eq].
      * intros [u' [Hu' Hid]]. injection Hu' as <-. now apply Z.eqb_eq.
    + split; [discriminate | intros [u [Hu _]]; discriminate].
  - intros s client Hs. unfold privileged, ctx_of. cbn [session db].
    destruct (session_user (cookies s client) (store s)) as [u|] eqn:Hu;
      [|discriminate].
    intros Hadmin. apply Z.eqb_eq in Hadmin.
    apply session_user_in in Hu. destruct Hu as [Hin _].
    destruct (reachable_well_formed s Hs)
      as [Huid _ _ Hfirst _ _ _ _ _].
    destruct (users (store s)) as [|u0 us] eqn:Hus; [contradiction|].
    cbn. f_equal.
    apply (NoDup_map_eq User.id (u0 :: us)); [assumption | assumption | |].
    + now left.
    + rewrite Hadmin. symmetry. now apply Hfirst.
Qed.

(** C8, as the code has it: in every state the application can reach,
    every comment references exactly one existing user and either no
    post (its parent was deleted) or exactly one existing post, every
    post references exactly one existing user, and emails and titles
    are unique. *)
Theorem reachable_store_invariants (s : System) :
  reachable hash_internal s -> store_invariants (store s).
Proof.
  intros Hs. apply well_formed_store_invariants.
  now apply reachable_well_formed.
Qed.

(** C9: serving one request sends the store at most one commit. *)
Theorem one_commit_per_request env client r (s : System) :
  let s' := snd (serve hash_internal env client r s) in
  commits (store s') = commits (store s)
  \/ commits (store s') = S (commits (store s)).
Proof.
  intros s'.
  pose proof (store_step_commits _ _
                (serve_store_step hash_internal env client r s)) as H.
  subst s'. lia.
Qed.

End Reachability.

Lemma reachable_serve_all (l : list (nat * Request)) (s : System) :
  reachable sample_kdf s -> reachable sample_kdf (serve_all l s).
Proof.
  revert s. induction l as [|[client r] l IH]; intros s Hs; [exact Hs|].
  cbn. apply IH. now apply reachable_serve.
Qed.

Lemma reachable_blog_with_comment : reachable sample_kdf blog_with_comment.
Proof. apply reachable_serve_all. apply reachable_initial. Qed.

Lemma reachable_blog_after_delete : reachable sample_kdf blog_after_delete.
Proof. apply reachable_serve_all. apply reachable_blog_with_comment. Qed.

(** C8 as worded fails: after a post that has a comment is deleted, the
    comment references no post. *)
Lemma orphan_comment_counterexample :
  reachable sample_kdf blog_after_delete
  /\ ~ spec_invariants (store blog_after_delete).
Proof.
  split; [apply reachable_blog_after_delete|].
  intros [_ Hpost _ _ _].
  destruct (Hpost {| Comment.id := 1; Comment.author_id := Some 2;
                     Comment.post_id := None; Comment.text := "Nice!" |})
    as [k [Hk _]].
  - vm_compute. now left.
  - discriminate.
Qed.


(** ** The properties at sample requests *)

Ltac nodup_concrete :=
  vm_compute;
  repeat (constructor; [cbn; intuition discriminate|]);
  constructor.

Lemma admin_gate_witness :
  privileged (ctx_of blog_with_comment 0) = true
  /\ session_user (cookies blog_with_comment 0) (store blog_with_comment)
     = hd_error (users (store blog_with_comment)).
Proof.
  split; [vm_compute; reflexivity|].
  apply (proj2 (proj2 (admin_gate sample_kdf)) blog_with_comment 0%nat).
  - apply reachable_blog_with_comment.
  - vm_compute. reflexivity.
Defined.

Lemma register_creates_one_user_witness :
  pending (ctx_of initial 0) = []
  /\ ~ In (reg_email alice) (map User.email (users (db (ctx_of initial 0))))
  /\ fst (register sample_kdf sample_env POST alice true (ctx_of initial 0))
     = inr (redirect ep_get_all_posts).
Proof.
  split; [reflexivity|]. split; [intros []|].
  destruct (register_creates_one_user sample_kdf sample_env alice
              (ctx_of initial 0) eq_refl) as [Hnew _].
  destruct Hnew as [Hrun _]; [intros []|].
  rewrite Hrun. reflexivity.
Defined.

Lemma login_iff_credentials_witness :
  NoDup (map User.email (users (db (ctx_of blog_with_comment 2))))
  /\ NoDup (map User.id (users (db (ctx_of blog_with_comment 2))))
  /\ fst (login sample_kdf POST alice_login true (ctx_of blog_with_comment 2))
     = inr (redirect ep_get_all_posts).
Proof.
  assert (NoDup (map User.email (users (db (ctx_of blog_with_comment 2)))))
    as Hemail by nodup_concrete.
  assert (NoDup (map User.id (users (db (ctx_of blog_with_comment 2)))))
    as Hid by nodup_concrete.
  split; [exact Hemail|]. split; [exact Hid|].
  apply (proj1 (login_iff_credentials sample_kdf alice_login
                  (ctx_of blog_with_comment 2) Hemail Hid)).
  eexists. split; [vm_compute; left; reflexivity|].
  split; vm_compute; reflexivity.
Defined.

Lemma show_post_comment_submission_witness :
  pending (ctx_of blog_with_comment 1) = []
  /\ List.length
       (comments (db (snd (show_post POST 1 nice true
                                     (ctx_of blog_with_comment 1)))))
     = 2%nat
  /\ pending (ctx_of blog_with_comment 2) = []
  /\ session_user (session (ctx_of blog_with_comment 2))
                  (db (ctx_of blog_with_comment 2)) = None
  /\ sqlite_integer 1 = true
  /\ fst (show_post POST 1 nice true (ctx_of blog_with_comment 2))
     = inr (redirect ep_login).
Proof.
  split; [reflexivity|].
  destruct (show_post_comment_submission 1 nice (ctx_of blog_with_comment 1)
              eq_refl) as [Hauth _].
  destruct (show_post_comment_submission 1 nice (ctx_of blog_with_comment 2)
              eq_refl) as [_ Hanon].
  split.
  - edestruct Hauth as [_ Hrun]; [vm_compute; reflexivity ..|].
    rewrite Hrun. vm_compute. reflexivity.
  - split; [reflexivity|]. split; [reflexivity|]. split; [reflexivity|].
    destruct (Hanon eq_refl eq_refl) as [Hrun _].
    rewrite Hrun. reflexivity.
Defined.

Lemma show_post_lists_all_comments_witness :
  sqlite_integer 2 = true
  /\ exists p li f cs c',
      show_post GET 2 nice false (ctx_of blog_two_posts 1)
      = (inr (render_template (post_html (Some p) li f cs)), c')
      /\ BlogPost.title p = "Second"
      /\ cs = comments (db c')
      /\ map Comment.post_id cs = [Some 1].
Proof.
  split; [reflexivity|].
  pose proof (proj1 (show_post_lists_all_comments GET 2 nice false
                       (ctx_of blog_two_posts 1)) eq_refl) as Hget.
  do 5 eexists. split; [rewrite Hget; vm_compute; reflexivity|].
  split; [reflexivity|]. split; [|reflexivity].
  eapply (proj2 (show_post_lists_all_comments GET 2 nice false
                   (ctx_of blog_two_posts 1))).
  vm_compute. reflexivity.
Defined.

Lemma add_new_post_persists_witness :
  let c := ctx_of blog_registered 0 in
  let c' := snd (add_new_post sample_env POST hello true c) in
  pending c = []
  /\ add_new_post sample_env POST hello true c
     = (inr (redirect ep_get_all_posts), c')
  /\ exists u,
      session_user (session c) (db c) = Some u
      /\ map BlogPost.date (blog_posts (db c')) = ["November 03, 2026"]
      /\ map BlogPost.author_id (blog_posts (db c')) = [Some (User.id u)].
Proof.
  intros c c'.
  assert (add_new_post sample_env POST hello true c
          = (inr (redirect ep_get_all_posts), c')) as Hrun
      by (vm_compute; reflexivity).
  split; [reflexivity|]. split; [exact Hrun|].
  destruct (add_new_post_persists sample_env POST hello true c c'
              eq_refl Hrun) as [u [Hu [_ [Hposts _]]]].
  exists u. split; [exact Hu|]. rewrite Hposts. split; reflexivity.
Defined.

Lemma edit_post_overwrites_witness :
  let c := ctx_of blog_with_comment 0 in
  let c' := snd (edit_post POST 1 hello2 true c) in
  pending c = []
  /\ edit_post POST 1 hello2 true c = (inr (redirect (ep_show_post 1)), c')
  /\ option_map BlogPost.subtitle (BlogPost_query_get 1 (db c')) = Some "Sub2"
  /\ option_map BlogPost.date (BlogPost_query_get 1 (db c'))
     = option_map BlogPost.date (BlogPost_query_get 1 (db c)).
Proof.
  intros c c'.
  assert (edit_post POST 1 hello2 true c
          = (inr (redirect (ep_show_post 1)), c')) as Hrun
      by (vm_compute; reflexivity).
  split; [reflexivity|]. split; [exact Hrun|].
  destruct (edit_post_overwrites POST 1 hello2 true c c' 1 eq_refl Hrun)
    as [post [Hpost [_ [Hpost' _]]]].
  rewrite Hpost', Hpost. split; reflexivity.
Defined.

Lemma reachable_store_invariants_witness :
  reachable sample_kdf blog_after_delete
  /\ store_invariants (store blog_after_delete).
Proof.
  split; [apply reachable_blog_after_delete|].
  apply (reachable_store_invariants sample_kdf blog_after_delete).
  apply reachable_blog_after_delete.
Defined.



(** * Further properties of the views *)

(** ** Logging out *)

Lemma logout_run (c : Ctx) :
  logout c
  = match session_user (session c) (db c) with
    | Some _ => (inr (redirect ep_get_all_posts), logged_out c)
    | None => (inl (HTTPException 401), c)
    end.
Proof.
  unfold logout, logged_out. run_view.
  destruct (session_user (session c) (db c)); reflexivity.
Qed.

Section Sessions.

Variable hash_internal : string -> string -> string -> string.

(** X1: after a login that succeeded, logout redirects to the index and
    leaves the session anonymous with the store and the flashed messages
    untouched; logging out once more is answered 401 and changes nothing. *)
Theorem logout_after_login
        (form : LoginForm) (c c1 : Ctx)
        (Hlogin : login hash_internal POST form true c
                  = (inr (redirect ep_get_all_posts), c1)) :
  logout c1 = (inr (redirect ep_get_all_posts), logged_out c1)
  /\ session_user (session (logged_out c1)) (db (logged_out c1)) = None
  /\ db (logged_out c1) = db c
  /\ flashes (session (logged_out c1)) = flashes (session c)
  /\ logout (logged_out c1) = (inl (HTTPException 401), logged_out c1).
Proof.
  revert Hlogin. unfold login. run_view.
  destruct (User_query_filter_by_email_first (login_email form) (db c))
    as [u|] eqn:Hq; [|discriminate].
  destruct (check_password_hash hash_internal (User.password u)
                                (login_password form)); [|discriminate].
  intros H. injection H as <-.
  apply find_some in Hq. destruct Hq as [Hin _].
  assert (exists u', session_user
                       {| user_id := Some (User.id u);
                          flashes := flashes (session c) |} (db c) = Some u')
    as [u' Hu'].
  { unfold session_user, load_user, User_query_get. cbn.
    destruct (find (fun x => User.id x =? User.id u) (users (db c)))
      as [x|] eqn:Hf; [now exists x|].
    pose proof (find_none _ _ Hf u Hin) as Hu. cbn in Hu.
    rewrite Z.eqb_refl in Hu. discriminate. }
  rewrite !logout_run. cbn [session db logged_out]. rewrite Hu'.
  repeat split.
Qed.

End Sessions.

(** ** Deleting and editing *)

Lemma find_filter_removed (pid : Z) (l : list BlogPost.t) :
  find (fun p => BlogPost.id p =? pid)
       (filter (fun q => negb (BlogPost.id q =? pid)) l) = None.
Proof.
  induction l as [|q l IH]; cbn; [reflexivity|].
  destruct (BlogPost.id q =? pid) eqn:Hq; cbn; [exact IH|].
  now rewrite Hq.
Qed.

Lemma find_filter_kept (pid j : Z) (l : list BlogPost.t) :
  j <> pid ->
  find (fun p => BlogPost.id p =? j)
       (filter (fun q => negb (BlogPost.id q =? pid)) l)
  = find (fun p => BlogPost.id p =? j) l.
Proof.
  intros Hj. induction l as [|q l IH]; cbn; [reflexivity|].
  destruct (BlogPost.id q =? pid) eqn:Hq; cbn.
  - apply Z.eqb_eq in Hq.
    destruct (BlogPost.id q =? j) eqn:Hqj; [|exact IH].
    apply Z.eqb_eq in Hqj. congruence.
  - destruct (BlogPost.id q =? j); [reflexivity | exact IH].
Qed.

Lemma nullify_parent_keeps (pid : Z) (cm : Comment.t) :
  Comment.id (nullify_parent pid cm) = Comment.id cm
  /\ Comment.author_id (nullify_parent pid cm) = Comment.author_id cm
  /\ Comment.text (nullify_parent pid cm) = Comment.text cm
  /\ Comment.post_id (nullify_parent pid cm) <> Some pid
  /\ (Comment.post_id (nullify_parent pid cm) = Comment.post_id cm
      \/ (Comment.post_id (nullify_parent pid cm) = None
          /\ Comment.post_id cm = Some pid)).
Proof.
  unfold nullify_parent.
  destruct (Comment.post_id cm) as [k|] eqn:Hk.
  - destruct (k =? pid) eqn:Hkp; cbn.
    + apply Z.eqb_eq in Hkp. subst k.
      repeat split; [discriminate | right; now split].
    + apply Z.eqb_neq in Hkp. rewrite Hk.
      repeat split; [congruence | now left].
  - rewrite Hk. repeat split; [discriminate | now left].
Qed.

Lemma delete_post_run (post_id : Z) (c : Ctx) (post : BlogPost.t) :
  pending c = [] ->
  privileged c = true ->
  BlogPost_query_get post_id (db c) = Some post ->
  delete_post post_id c
  = (inr (redirect ep_get_all_posts),
     {| session := session c;
        db := set_blog_posts
                (set_comments (count_commit (db c))
                   (map (nullify_parent post_id) (comments (db c))))
                (filter (fun q => negb (BlogPost.id q =? post_id))
                        (blog_posts (db c)));
        pending := [] |}).
Proof.
  intros Hfresh Hadmin Hpost.
  pose proof (BlogPost_query_get_some _ _ _ Hpost) as (_ & Hid & Hrange).
  unfold delete_post.
  rewrite admin_only_run, Hadmin. unfold delete_post_view. run_view.
  rewrite Hrange, Hpost. cbn. rewrite Hfresh. cbn.
  rewrite Hid. reflexivity.
Qed.

(** X2: when the administrator deletes an existing post, the post can no
    longer be looked up or listed, every other post is as before, no
    comment is removed or loses its id, author or text, no comment still
    points at the deleted post, the users are untouched and one commit
    is sent. *)
Theorem delete_post_removes
        (post_id : Z) (c : Ctx) (post : BlogPost.t)
        (Hfresh : pending c = [])
        (Hadmin : privileged c = true)
        (Hpost : BlogPost_query_get post_id (db c) = Some post) :
  exists c',
    delete_post post_id c = (inr (redirect ep_get_all_posts), c')
    /\ BlogPost_query_get post_id (db c') = None
    /\ (forall j, j <> post_id ->
                  BlogPost_query_get j (db c') = BlogPost_query_get j (db c))
    /\ (forall p, In p (BlogPost_query_all (db c'))
                  <-> In p (blog_posts (db c)) /\ BlogPost.id p <> post_id)
    /\ map Comment.id (comments (db c')) = map Comment.id (comments (db c))
    /\ map Comment.author_id (comments (db c'))
       = map Comment.author_id (comments (db c))
    /\ map Comment.text (comments (db c')) = map Comment.text (comments (db c))
    /\ (forall cm, In cm (comments (db c')) ->
                   Comment.post_id cm <> Some post_id)
    /\ users (db c') = users (db c)
    /\ session c' = session c
    /\ commits (db c') = S (commits (db c)).
Proof.
  eexists. split; [apply (delete_post_run post_id c post); assumption|].
  unfold BlogPost_query_get.
  cbn [db session blog_posts comments users commits set_blog_posts
       set_comments count_commit BlogPost_query_all].
  split; [destruct (sqlite_integer post_id);
          [apply find_filter_removed | reflexivity]|].
  split; [intros j Hj; destruct (sqlite_integer j);
          [now apply find_filter_kept | reflexivity]|].
  split.
  { intros p. rewrite filter_In, negb_true_iff, Z.eqb_neq. reflexivity. }
  rewrite !map_map.
  split; [apply map_ext; intros cm; apply nullify_parent_keeps|].
  split; [apply map_ext; intros cm; apply nullify_parent_keeps|].
  split; [apply map_ext; intros cm; apply nullify_parent_keeps|].
  split; [|repeat split].
  intros cm Hcm. apply in_map_iff in Hcm. destruct Hcm as [cm0 [<- _]].
  apply nullify_parent_keeps.
Qed.

Lemma admin_views_overflow
      (m : Method) (post_id : Z) (form : CreatePostForm) (v : bool) (c : Ctx) :
  sqlite_integer post_id = false ->
  edit_post_view m post_id form v c = (inl OverflowError, c)
  /\ delete_post_view post_id c = (inl OverflowError, c).
Proof.
  intros H. unfold edit_post_view, delete_post_view. run_view.
  rewrite H. split; reflexivity.
Qed.

(** X3: for the administrator, a post id that the store can hold and
    that is not in it makes edit_post fail with AttributeError and
    delete_post fail with UnmappedInstanceError, and a post id too large
    for the store makes both fail with OverflowError; in every case
    nothing is committed and the context is left as it was. *)
Theorem admin_views_missing_post
        (m : Method) (post_id : Z) (form : CreatePostForm) (v : bool) (c : Ctx)
        (Hadmin : privileged c = true)
        (Hmissing : BlogPost_query_get post_id (db c) = None) :
  (sqlite_integer post_id = true ->
   edit_post m post_id form v c = (inl AttributeError, c)
   /\ delete_post post_id c = (inl UnmappedInstanceError, c))
  /\ (sqlite_integer post_id = false ->
      edit_post m post_id form v c = (inl OverflowError, c)
      /\ delete_post post_id c = (inl OverflowError, c)).
Proof.
  unfold edit_post, delete_post. rewrite !admin_only_run, Hadmin.
  split; intros Hrange.
  - unfold edit_post_view, delete_post_view. run_view.
    rewrite Hrange, Hmissing. split; reflexivity.
  - now apply admin_views_overflow.
Qed.

Lemma privileged_authenticated (c : Ctx) :
  privileged c = true ->
  is_authenticated (session_user (session c) (db c)) = true.
Proof.
  unfold privileged. destruct (session_user (session c) (db c));
    [reflexivity | discriminate].
Qed.

(** X4: for the administrator and a post whose author exists, a GET of
    the edit page shows the form filled with the post's title, subtitle,
    image URL and body, and a submission that does not validate shows the
    submitted values again; neither changes anything. *)
Theorem edit_post_shows_form
        (post_id : Z) (form : CreatePostForm) (v : bool) (c : Ctx)
        (post : BlogPost.t) (author : User.t)
        (Hadmin : privileged c = true)
        (Hpost : BlogPost_query_get post_id (db c) = Some post)
        (Hauthor : BlogPost_author post (db c) = Some author) :
  edit_post GET post_id form v c
  = (inr (render_template
            (make_post_html
               {| form_title := BlogPost.title post;
                  form_subtitle := BlogPost.subtitle post;
                  form_img_url := BlogPost.img_url post;
                  form_body := BlogPost.body post |} true)), c)
  /\ edit_post POST post_id form false c
     = (inr (render_template (make_post_html form true)), c).
Proof.
  pose proof (privileged_authenticated c Hadmin) as Hauth.
  unfold edit_post. rewrite !admin_only_run, Hadmin.
  pose proof (BlogPost_query_get_some _ _ _ Hpost) as (_ & _ & Hrange).
  unfold edit_post_view, prefill. run_view.
  rewrite Hrange, Hpost. cbn. rewrite Hauthor. cbn.
  rewrite logged_in_flag, Hauth. split; reflexivity.
Qed.

(** X5: the administrator cannot create a second post with a title that
    is already in use: the commit fails with IntegrityError, is rolled
    back, and the tables are as before. *)
Theorem add_new_post_taken_title
        (env : Env) (form : CreatePostForm) (c : Ctx)
        (Hfresh : pending c = [])
        (Hadmin : privileged c = true)
        (Htaken : In (form_title form)
                     (map BlogPost.title (blog_posts (db c)))) :
  add_new_post env POST form true c = (inl IntegrityError, rolled_back c)
  /\ blog_posts (db (rolled_back c)) = blog_posts (db c)
  /\ users (db (rolled_back c)) = users (db c)
  /\ comments (db (rolled_back c)) = comments (db c).
Proof.
  split; [|repeat split].
  unfold add_new_post. rewrite admin_only_run, Hadmin.
  unfold privileged in Hadmin.
  destruct (session_user (session c) (db c)) as [u|] eqn:Hu; [|discriminate].
  unfold add_new_post_view, rolled_back. run_view. rewrite Hu. cbn.
  rewrite Hfresh. cbn.
  destruct (existsb _ _) eqn:Htitle; cbn; [reflexivity|].
  exfalso. apply in_map_iff in Htaken. destruct Htaken as [q [Hq Hqin]].
  pose proof (existsb_false _ _ Htitle q Hqin) as Hf. cbn in Hf.
  rewrite Hq, String.eqb_refl in Hf. discriminate.
Qed.

(** X6: the administrator cannot rename a post to the title of another
    post: the commit fails with IntegrityError, is rolled back, and the
    tables are as before. *)
Theorem edit_post_taken_title
        (post_id : Z) (form : CreatePostForm) (c : Ctx)
        (post other : BlogPost.t) (author : User.t)
        (Hfresh : pending c = [])
        (Hadmin : privileged c = true)
        (Hpost : BlogPost_query_get post_id (db c) = Some post)
        (Hauthor : BlogPost_author post (db c) = Some author)
        (Hother : In other (blog_posts (db c)))
        (Hdistinct : BlogPost.id other <> post_id)
        (Htaken : BlogPost.title other = form_title form) :
  edit_post POST post_id form true c = (inl IntegrityError, rolled_back c)
  /\ blog_posts (db (rolled_back c)) = blog_posts (db c)
  /\ users (db (rolled_back c)) = users (db c)
  /\ comments (db (rolled_back c)) = comments (db c).
Proof.
  split; [|repeat split].
  unfold edit_post. rewrite admin_only_run, Hadmin.
  pose proof (BlogPost_query_get_some _ _ _ Hpost) as (_ & Hid & Hrange).
  unfold edit_post_view, rolled_back, prefill. run_view.
  rewrite Hrange, Hpost. cbn. rewrite Hauthor. cbn. rewrite Hfresh. cbn.
  destruct (existsb _ _) eqn:Htitle; cbn; [reflexivity|].
  exfalso. pose proof (existsb_false _ _ Htitle other Hother) as Hf.
  cbn in Hf.
  rewrite Hid in Hf. apply Z.eqb_neq in Hdistinct.
  rewrite Hdistinct, Htaken, String.eqb_refl in Hf. discriminate.
Qed.

(** ** Routing *)

Lemma show_post_unvalidated (m : Method) (post_id : Z) (form : CommentForm)
      (c : Ctx) :
  snd (show_post m post_id form false c) = c.
Proof.
  unfold show_post. run_view.
  destruct (sqlite_integer post_id); destruct m; reflexivity.
Qed.

Lemma show_post_get_context (post_id : Z) (form : CommentForm) (v : bool)
      (c : Ctx) :
  snd (show_post GET post_id form v c) = c.
Proof.
  destruct (sqlite_integer post_id) eqn:Hrange.
  - now rewrite show_post_get.
  - now rewrite show_post_overflow.
Qed.

Lemma admin_view_get_context {A} (view : M A) (c : Ctx) :
  snd (view c) = c -> snd (admin_only view c) = c.
Proof.
  intros H. rewrite admin_only_run. destruct (privileged c); [exact H|].
  reflexivity.
Qed.

Lemma add_new_post_view_get (env : Env) (form : CreatePostForm) (v : bool)
      (c : Ctx) :
  snd (add_new_post_view env GET form v c) = c.
Proof. unfold add_new_post_view. run_view. reflexivity. Qed.

Lemma edit_post_view_get (post_id : Z) (form : CreatePostForm) (v : bool)
      (c : Ctx) :
  snd (edit_post_view GET post_id form v c) = c.
Proof.
  unfold edit_post_view. run_view.
  destruct (sqlite_integer post_id); [|reflexivity].
  destruct (BlogPost_query_get post_id (db c)) as [post|]; [|reflexivity].
  cbn. destruct (BlogPost_author post (db c)); reflexivity.
Qed.

Section Routing.

Variable hash_internal : string -> string -> string -> string.

Lemma unvalidated_register env m form (c : Ctx) :
  snd (register hash_internal env m form false c) = c.
Proof. unfold register. run_view. destruct m; reflexivity. Qed.

Lemma unvalidated_login m form (c : Ctx) :
  snd (login hash_internal m form false c) = c.
Proof. unfold login. run_view. destruct m; reflexivity. Qed.

(** X7: only a validated POST, a logout or a delete can write: a GET on
    any other route, and a POST whose form does not validate, leave the
    store, the pending work and the session's user as they were,
    whoever sends them and whatever they answer. *)
Theorem only_validated_posts_write (env : Env) (r : Request) (c : Ctx)
        (Hsafe : (method r = GET /\ acts_on_get (route r) = false)
                 \/ (method r = POST /\ validates r = false)) :
  let c' := snd (dispatch hash_internal env r c) in
  db c' = db c
  /\ pending c' = pending c
  /\ user_id (session c') = user_id (session c).
Proof.
  intros c'. subst c'.
  assert (snd (dispatch hash_internal env r c) = c) as ->;
    [|repeat split].
  unfold dispatch.
  destruct Hsafe as [[Hm Hroute]|[Hm Hv]]; rewrite Hm.
  - destruct (route r) as [ | form | form | | post_id form | | | form
                          | post_id form | post_id ];
      try discriminate; unfold methods, int_converter; cbn.
    + reflexivity.
    + reflexivity.
    + reflexivity.
    + destruct (post_id <? 0); [reflexivity|]. apply show_post_get_context.
    + reflexivity.
    + reflexivity.
    + apply admin_view_get_context, add_new_post_view_get.
    + destruct (post_id <? 0); [reflexivity|].
      apply admin_view_get_context, edit_post_view_get.
  - rewrite Hv.
    destruct (route r) as [ | form | form | | post_id form | | | form
                          | post_id form | post_id ];
      unfold methods, int_converter; cbn;
      try (destruct (post_id <? 0); [reflexivity|]);
      first
        [ reflexivity
        | apply unvalidated_register
        | apply unvalidated_login
        | apply show_post_unvalidated
        | apply admin_view_get_context; unfold add_new_post_view;
          run_view; reflexivity
        | apply admin_view_get_context; unfold edit_post_view, prefill;
          run_view;
          destruct (sqlite_integer post_id); [|reflexivity];
          destruct (BlogPost_query_get post_id (db c)) as [post|];
          [|reflexivity];
          cbn; destruct (BlogPost_author post (db c)); reflexivity ].
Qed.

(** X8: a POST to the index, logout, about, contact or delete route
    never reaches the view and changes nothing: it is answered 405,
    except on the delete route with a negative post id, where no rule
    matches and it is answered 404. *)
Theorem post_to_get_only_route (env : Env) (r : Request) (c : Ctx)
        (Hpost : method r = POST)
        (Hroute : get_only (route r) = true) :
  dispatch hash_internal env r c
  = (inl (HTTPException
            match route r with
            | url_delete_post post_id => if post_id <? 0 then 404 else 405
            | _ => 405
            end), c).
Proof.
  unfold dispatch. rewrite Hpost.
  destruct (route r); try discriminate; unfold methods, int_converter; cbn;
    try reflexivity.
  destruct (post_id <? 0); reflexivity.
Qed.

End Routing.

(** ** What no request does *)

Lemma store_step_users (d d' : Database) :
  store_step d d' ->
  exists l, users d' = users d ++ l /\ (List.length l <= 1)%nat.
Proof.
  intros H. destruct H; cbn;
    try (exists []; split; [now rewrite app_nil_r | cbn; lia]).
  eexists. split; [reflexivity | cbn; lia].
Qed.

Lemma store_step_comments (d d' : Database) (i : nat) (cm : Comment.t) :
  store_step d d' ->
  nth_error (comments d) i = Some cm ->
  exists cm',
    nth_error (comments d') i = Some cm'
    /\ Comment.id cm' = Comment.id cm
    /\ Comment.author_id cm' = Comment.author_id cm
    /\ Comment.text cm' = Comment.text cm
    /\ (Comment.post_id cm' = Comment.post_id cm
        \/ Comment.post_id cm' = None).
Proof.
  intros H Hi.
  destruct H; cbn;
    try (exists cm; repeat split; [assumption | now left]).
  - exists cm. repeat split; [|now left].
    rewrite nth_error_app1; [assumption|].
    apply nth_error_Some. congruence.
  - exists (nullify_parent (BlogPost.id p) cm).
    split; [now apply map_nth_error|].
    pose proof (nullify_parent_keeps (BlogPost.id p) cm)
      as (Hid & Hauthor & Htext & _ & Hpost).
    repeat split; try assumption. tauto.
Qed.

Lemma store_step_post_authors (d d' : Database) :
  store_step d d' ->
  (forall p, In p (blog_posts d) -> BlogPost.author_id p = Some 1) ->
  forall p, In p (blog_posts d') -> BlogPost.author_id p = Some 1.
Proof.
  intros H Hall. destruct H; cbn; try assumption.
  - intros q Hq. apply in_app_or in Hq. destruct Hq as [Hq|[<-|[]]].
    + now apply Hall.
    + cbn. now f_equal.
  - intros q Hq. apply in_replace in Hq. destruct Hq as [->|[Hq _]].
    + match goal with Ha : BlogPost.author_id p' = _ |- _ => rewrite Ha end.
      now apply Hall.
    + now apply Hall.
  - intros q Hq. apply filter_In in Hq. now apply Hall.
Qed.

Section Histories.

Variable hash_internal : string -> string -> string -> string.

(** X9: no request removes or alters a user: after any request the
    users table is the old one with at most one row appended. *)
Theorem users_only_appended (env : Env) (client : nat) (r : Request)
        (s : System) :
  exists l,
    users (store (snd (serve hash_internal env client r s)))
    = users (store s) ++ l
    /\ (List.length l <= 1)%nat.
Proof. apply store_step_users, serve_store_step. Qed.

(** X10: no request removes a comment or changes its id, author or
    text: the comment at each position is still there afterwards, and
    its parent post is the same or has been cleared. *)
Theorem comments_never_removed (env : Env) (client : nat) (r : Request)
        (s : System) (i : nat) (cm : Comment.t)
        (Hcm : nth_error (comments (store s)) i = Some cm) :
  exists cm',
    nth_error (comments (store (snd (serve hash_internal env client r s)))) i
    = Some cm'
    /\ Comment.id cm' = Comment.id cm
    /\ Comment.author_id cm' = Comment.author_id cm
    /\ Comment.text cm' = Comment.text cm
    /\ (Comment.post_id cm' = Comment.post_id cm
        \/ Comment.post_id cm' = None).
Proof.
  apply (store_step_comments (store s)); [apply serve_store_step | exact Hcm].
Qed.

(** X11: in every state the application can reach, every post's author
    is the user with id 1. *)
Theorem posts_are_by_the_admin (s : System) (p : BlogPost.t)
        (Hs : reachable hash_internal s)
        (Hp : In p (blog_posts (store s))) :
  BlogPost.author_id p = Some 1.
Proof.
  revert p Hp. induction Hs as [|env client r s Hs IH].
  - intros p [].
  - apply (store_step_post_authors (store s)); [|exact IH].
    apply serve_store_step.
Qed.

End Histories.

(** ** Cookies *)

Lemma find_app_found {A} (f : A -> bool) (l1 l2 : list A) (x : A) :
  find f l1 = Some x -> find f (l1 ++ l2) = Some x.
Proof.
  induction l1 as [|y l1 IH]; cbn; [discriminate|].
  destruct (f y); [trivial | exact IH].
Qed.

Lemma find_id_exists {A} (key : A -> Z) (rows : list A) (r : A) :
  In r rows -> exists x, find (fun y => key y =? key r) rows = Some x.
Proof.
  intros Hin. destruct (find (fun y => key y =? key r) rows) as [x|] eqn:Hf;
    [now exists x|].
  pose proof (find_none _ _ Hf r Hin) as Hr. cbn in Hr.
  rewrite Z.eqb_refl in Hr. discriminate.
Qed.

Lemma show_post_session_user m post_id form v (c : Ctx) :
  user_id (session (snd (show_post m post_id form v c))) = user_id (session c).
Proof.
  destruct m; [now rewrite show_post_get_context|].
  destruct v; [|now rewrite show_post_unvalidated].
  unfold show_post. run_view.
  destruct (sqlite_integer post_id); [|reflexivity].
  destruct (session_user (session c) (db c)) as [u|]; [|reflexivity].
  destruct (BlogPost_query_get post_id (db c)) as [post|]; [|reflexivity].
  cbn. destruct (flush _ _) as [[d' ks]|]; reflexivity.
Qed.

Lemma add_new_post_session env m form v (c : Ctx) :
  session (snd (add_new_post env m form v c)) = session c.
Proof.
  unfold add_new_post. rewrite admin_only_run.
  destruct (privileged c); [|reflexivity].
  unfold add_new_post_view. run_view.
  destruct m; [reflexivity|]. destruct v; [|reflexivity].
  destruct (session_user (session c) (db c)) as [u|]; [|reflexivity].
  cbn. destruct (flush _ _) as [[d' ks]|]; reflexivity.
Qed.

Lemma edit_post_session m post_id form v (c : Ctx) :
  session (snd (edit_post m post_id form v c)) = session c.
Proof.
  unfold edit_post. rewrite admin_only_run.
  destruct (privileged c); [|reflexivity].
  unfold edit_post_view. run_view.
  destruct (sqlite_integer post_id); [|reflexivity].
  destruct (BlogPost_query_get post_id (db c)) as [post|]; [|reflexivity].
  cbn. destruct (BlogPost_author post (db c)); [|reflexivity].
  cbn. destruct m; [reflexivity|]. destruct v; [|reflexivity].
  cbn. destruct (flush _ _) as [[d' ks]|]; reflexivity.
Qed.

Lemma delete_post_session post_id (c : Ctx) :
  session (snd (delete_post post_id c)) = session c.
Proof.
  unfold delete_post. rewrite admin_only_run.
  destruct (privileged c); [|reflexivity].
  unfold delete_post_view. run_view.
  destruct (sqlite_integer post_id); [|reflexivity].
  destruct (BlogPost_query_get post_id (db c)) as [post|]; [|reflexivity].
  cbn. destruct (flush _ _) as [[d' ks]|]; reflexivity.
Qed.

Lemma methods_post {A} allowed m (view : M A) (c : Ctx) (P : Ctx -> Prop) :
  P c -> P (snd (view c)) -> P (snd (methods allowed m view c)).
Proof.
  intros Hc Hv. unfold methods. destruct (existsb _ allowed); assumption.
Qed.

Lemma int_converter_post {A} post_id (view : M A) (c : Ctx) (P : Ctx -> Prop) :
  P c -> P (snd (view c)) -> P (snd (int_converter post_id view c)).
Proof.
  intros Hc Hv. unfold int_converter. destruct (post_id <? 0); assumption.
Qed.

Section Cookies.

Variable hash_internal : string -> string -> string -> string.

Lemma register_session_step env m form v (c : Ctx) :
  pending c = [] ->
  session_step c (snd (register hash_internal env m form v c)).
Proof.
  intros Hfresh. destruct m; [now left|]. destruct v; [|now left].
  destruct (in_dec string_dec (reg_email form)
                   (map User.email (users (db c)))) as [Hin|Hnew].
  - rewrite (register_duplicate_run hash_internal env form c Hin). now left.
  - rewrite (register_new_run hash_internal env form c Hfresh Hnew).
    right. right. eexists. split; [|reflexivity].
    cbn. apply in_or_app. right. now left.
Qed.

Lemma login_session_step m form v (c : Ctx) :
  session_step c (snd (login hash_internal m form v c)).
Proof.
  unfold login. run_view.
  destruct m; [now left|]. destruct v; [|now left].
  destruct (User_query_filter_by_email_first _ _) as [u|] eqn:Hq; [|now left].
  destruct (check_password_hash _ _ _); [|now left].
  right. right. exists u. split; [|reflexivity].
  cbn. apply find_some in Hq. tauto.
Qed.

Lemma dispatch_session_step env r (c : Ctx) :
  pending c = [] ->
  session_step c (snd (dispatch hash_internal env r c)).
Proof.
  intros Hfresh. unfold dispatch.
  destruct (route r);
    repeat first [apply int_converter_post; [now left|]
                 | apply methods_post; [now left|]].
  - now left.
  - now apply register_session_step.
  - apply login_session_step.
  - rewrite logout_run.
    destruct (session_user (session c) (db c)); [right|]; now left.
  - left. apply show_post_session_user.
  - now left.
  - now left.
  - left. now rewrite add_new_post_session.
  - left. now rewrite edit_post_session.
  - left. now rewrite delete_post_session.
Qed.

Lemma serve_cookies env client r (s : System) (k : nat) :
  cookies (snd (serve hash_internal env client r s)) k
  = if Nat.eqb k client
    then session (snd (dispatch hash_internal env r (ctx_of s client)))
    else cookies s k.
Proof.
  unfold serve, ctx_of. destruct (dispatch _ _ _ _); reflexivity.
Qed.

Lemma reachable_cookies (s : System) (k : nat) (uid : Z) :
  reachable hash_internal s ->
  user_id (cookies s k) = Some uid ->
  exists u, In u (users (store s)) /\ User.id u = uid.
Proof.
  intros Hs. revert k uid.
  induction Hs as [|env client r s Hs IH]; intros k uid; [discriminate|].
  destruct (store_step_users _ _
              (serve_store_step hash_internal env client r s))
    as [l [Husers _]].
  assert (forall uid0,
             (exists u, In u (users (store s)) /\ User.id u = uid0) ->
             exists u,
               In u (users (store (snd (serve hash_internal env client r s))))
               /\ User.id u = uid0) as Hkeep.
  { intros uid0 [u [Hu Hid]]. exists u. split; [|assumption].
    rewrite Husers. apply in_or_app. now left. }
  rewrite serve_cookies. destruct (Nat.eqb k client) eqn:Hk.
  - pose proof (dispatch_session_step env r (ctx_of s client) eq_refl)
      as [Hsame|[Hnone|[u [Hu Hid]]]].
    + rewrite Hsame. intros Huid. apply Hkeep. now apply (IH client).
    + rewrite Hnone. discriminate.
    + rewrite Hid. intros Huid. injection Huid as <-.
      exists u. split; [|reflexivity]. now rewrite serve_store.
  - intros Huid. apply Hkeep. now apply (IH k).
Qed.

(** X12: in every state the application can reach, a cookie that
    carries a user id resolves to a user with that id: load_user never
    comes back empty for it. *)
Theorem cookie_names_existing_user (s : System) (k : nat) (uid : Z)
        (Hs : reachable hash_internal s)
        (Hcookie : user_id (cookies s k) = Some uid) :
  exists u,
    session_user (cookies s k) (store s) = Some u
    /\ In u (users (store s))
    /\ User.id u = uid.
Proof.
  destruct (reachable_cookies s k uid Hs Hcookie) as [u0 [Hin <-]].
  unfold session_user, load_user, User_query_get. rewrite Hcookie.
  destruct (find_id_exists User.id (users (store s)) u0 Hin) as [u Hu].
  exists u. split; [exact Hu|]. now apply find_id_some in Hu.
Qed.

(** X13: a request of one client never changes who another client is
    logged in as. *)
Theorem other_clients_stay_logged_in
        (env : Env) (client k : nat) (r : Request) (s : System)
        (Hs : reachable hash_internal s)
        (Hother : k <> client) :
  let s' := snd (serve hash_internal env client r s) in
  session_user (cookies s' k) (store s') = session_user (cookies s k) (store s).
Proof.
  intros s'. subst s'. rewrite serve_cookies.
  apply Nat.eqb_neq in Hother. rewrite Hother.
  unfold session_user, load_user, User_query_get.
  destruct (user_id (cookies s k)) as [uid|] eqn:Hcookie; [|reflexivity].
  destruct (reachable_cookies s k uid Hs Hcookie) as [u0 [Hin <-]].
  destruct (find_id_exists User.id (users (store s)) u0 Hin) as [u Hu].
  destruct (store_step_users _ _
              (serve_store_step hash_internal env client r s))
    as [l [Husers _]].
  rewrite Husers, Hu. now apply find_app_found.
Qed.

End Cookies.

(** ** Accounts *)

Lemma next_id_empty : next_id [] = 1.
Proof. reflexivity. Qed.

Section Registration.

Variable hash_internal : string -> string -> string -> string.

(** X14: after a registration that created a user, a validated login
    with the same email and password succeeds from any session over that
    store, and logs in as the user registration created. *)
Theorem register_then_login
        (env : Env) (form : RegisterForm) (c c2 : Ctx)
        (Hfresh : pending c = [])
        (Hnew : ~ In (reg_email form) (map User.email (users (db c))))
        (Hstore : db c2 = db (snd (register hash_internal env POST form true c))) :
  login hash_internal POST
        {| login_email := reg_email form;
           login_password := reg_password form |} true c2
  = (inr (redirect ep_get_all_posts),
     logged_in_as (next_id (map User.id (users (db c)))) c2).
Proof.
  rewrite (register_new_run hash_internal env form c Hfresh Hnew) in Hstore.
  cbn [snd db] in Hstore.
  unfold login, logged_in_as. run_view.
  unfold User_query_filter_by_email_first. rewrite Hstore.
  cbn [users set_users login_email login_password].
  rewrite find_app_absent.
  - cbn [User.email]. rewrite String.eqb_refl. cbn [User.password User.id].
    rewrite check_generated_hash. cbn beta. rewrite ?Hstore. reflexivity.
  - intros u Hu. apply String.eqb_neq. intros He. apply Hnew.
    rewrite <- He. now apply in_map.
Qed.

(** X15: whoever registers into an empty users table gets id 1 and is
    the administrator at once; whoever registers when a user with id 1
    exists is logged in but is not the administrator. *)
Theorem first_registrant_is_admin
        (env : Env) (form : RegisterForm) (c : Ctx)
        (Hfresh : pending c = [])
        (Hnew : ~ In (reg_email form) (map User.email (users (db c)))) :
  let c1 := snd (register hash_internal env POST form true c) in
  (users (db c) = [] -> privileged c1 = true)
  /\ ((exists u, In u (users (db c)) /\ User.id u = 1) ->
      privileged c1 = false
      /\ is_authenticated (session_user (session c1) (db c1)) = true).
Proof.
  intros c1. subst c1.
  rewrite (register_new_run hash_internal env form c Hfresh Hnew).
  cbn [snd]. unfold privileged, session_user, load_user, User_query_get.
  cbn [session db user_id users set_users].
  match goal with
  | |- context [find _ (_ ++ [?nu])] =>
      rewrite (find_app_last User.id (users (db c)) nu eq_refl)
  end.
  cbn [User.id is_authenticated]. split.
  - intros ->. reflexivity.
  - intros [u [Hu Hid]]. split; [|reflexivity].
    apply Z.eqb_neq.
    pose proof (next_id_above (map User.id (users (db c))) (User.id u)
                              (in_map User.id _ _ Hu)). lia.
Qed.

(** X18: a validated login that fails says why: an email no user has
    is answered "This email does not exist", an email of a user whose
    hash rejects the password is answered "Invalid password"; either
    way the login page is shown again and only the flash is added. *)
Theorem login_failure_messages (form : LoginForm) (c : Ctx) :
  (~ In (login_email form) (map User.email (users (db c))) ->
   login hash_internal POST form true c
   = (inr (render_template (login_html form)),
      flashed c "This email does not exist. Please try again." "error"))
  /\ (forall u,
         User_query_filter_by_email_first (login_email form) (db c) = Some u ->
         check_password_hash hash_internal (User.password u)
                             (login_password form) = false ->
         login hash_internal POST form true c
         = (inr (render_template (login_html form)),
            flashed c "Invalid password." "error")).
Proof.
  split.
  - intros Hnone. apply find_email_none in Hnone.
    unfold login, flashed, User_query_filter_by_email_first. run_view.
    now rewrite Hnone.
  - intros u Hu Hpw. unfold login, flashed. run_view.
    now rewrite Hu, Hpw.
Qed.

End Registration.

(** ** Who can change what *)

Lemma show_post_tables m post_id form v (c : Ctx) :
  pending c = [] ->
  let c' := snd (show_post m post_id form v c) in
  blog_posts (db c') = blog_posts (db c)
  /\ (exists l, comments (db c') = comments (db c) ++ l
                /\ (List.length l <= 1)%nat)
  /\ (session_user (session c) (db c) = None ->
      comments (db c') = comments (db c)).
Proof.
  intros Hfresh c'. subst c'.
  assert (forall c0 : Ctx,
             db c0 = db c ->
             blog_posts (db c0) = blog_posts (db c)
             /\ (exists l, comments (db c0) = comments (db c) ++ l
                           /\ (List.length l <= 1)%nat)
             /\ (session_user (session c) (db c) = None ->
                 comments (db c0) = comments (db c))) as Hsame.
  { intros c0 ->. split; [reflexivity|]. split; [|reflexivity].
    exists []. split; [now rewrite app_nil_r | cbn; lia]. }
  destruct m; [rewrite show_post_get_context; now apply Hsame|].
  destruct v; [|rewrite show_post_unvalidated; now apply Hsame].
  destruct (sqlite_integer post_id) eqn:Hrange;
    [|rewrite show_post_overflow by exact Hrange; now apply Hsame].
  destruct (session_user (session c) (db c)) as [u|] eqn:Hu.
  - destruct (BlogPost_query_get post_id (db c)) as [post|] eqn:Hpost.
    + rewrite (show_post_authenticated_run post_id form c u post
                                           Hfresh Hu Hpost).
      cbn. split; [reflexivity|]. split; [|discriminate].
      eexists. split; [reflexivity | cbn; lia].
    + unfold show_post. run_view. rewrite Hrange, Hu, Hpost.
      now apply Hsame.
  - unfold show_post. run_view. rewrite Hrange, Hu. now apply Hsame.
Qed.

Section Authority.

Variable hash_internal : string -> string -> string -> string.

Lemma register_tables env m form v (c : Ctx) :
  pending c = [] ->
  let c' := snd (register hash_internal env m form v c) in
  blog_posts (db c') = blog_posts (db c) /\ comments (db c') = comments (db c).
Proof.
  intros Hfresh c'. subst c'.
  destruct m; [now split|]. destruct v; [|now split].
  destruct (in_dec string_dec (reg_email form)
                   (map User.email (users (db c)))) as [Hin|Hnew].
  - rewrite (register_duplicate_run hash_internal env form c Hin). now split.
  - rewrite (register_new_run hash_internal env form c Hfresh Hnew).
    now split.
Qed.

(** X16: a request from a session that is not the administrator's
    never changes the posts table and never removes or alters a comment:
    at most it appends one comment, and from an anonymous session not
    even that. *)
Theorem posts_change_needs_admin (env : Env) (r : Request) (c : Ctx)
        (Hfresh : pending c = [])
        (Hplain : privileged c = false) :
  let c' := snd (dispatch hash_internal env r c) in
  blog_posts (db c') = blog_posts (db c)
  /\ (exists l, comments (db c') = comments (db c) ++ l
                /\ (List.length l <= 1)%nat)
  /\ (session_user (session c) (db c) = None ->
      comments (db c') = comments (db c)).
Proof.
  intros c'. subst c'.
  set (P := fun c0 : Ctx =>
              blog_posts (db c0) = blog_posts (db c)
              /\ (exists l, comments (db c0) = comments (db c) ++ l
                            /\ (List.length l <= 1)%nat)
              /\ (session_user (session c) (db c) = None ->
                  comments (db c0) = comments (db c))).
  change (P (snd (dispatch hash_internal env r c))).
  assert (forall c0 : Ctx,
             blog_posts (db c0) = blog_posts (db c)
             /\ comments (db c0) = comments (db c) -> P c0) as Hsame.
  { intros c0 [Hp Hc]. split; [exact Hp|]. split; [|intros _; exact Hc].
    exists []. split; [now rewrite app_nil_r | cbn; lia]. }
  assert (P c) as Hc by (apply Hsame; split; reflexivity).
  unfold dispatch.
  destruct (route r);
    repeat first [ apply (int_converter_post _ _ c P); [exact Hc|]
                 | apply (methods_post _ _ _ c P); [exact Hc|] ].
  - exact Hc.
  - apply Hsame. now apply register_tables.
  - apply Hsame. rewrite login_store. split; reflexivity.
  - apply Hsame. rewrite logout_store. split; reflexivity.
  - now apply show_post_tables.
  - exact Hc.
  - exact Hc.
  - unfold add_new_post. rewrite admin_only_run, Hplain. exact Hc.
  - unfold edit_post. rewrite admin_only_run, Hplain. exact Hc.
  - unfold delete_post. rewrite admin_only_run, Hplain. exact Hc.
Qed.

End Authority.

(** ** The further properties at sample requests *)

Lemma logout_after_login_witness :
  let c := ctx_of blog_with_comment 2 in
  let c1 := snd (login sample_kdf POST alice_login true c) in
  login sample_kdf POST alice_login true c
  = (inr (redirect ep_get_all_posts), c1)
  /\ logout c1 = (inr (redirect ep_get_all_posts), logged_out c1)
  /\ logout (logged_out c1) = (inl (HTTPException 401), logged_out c1).
Proof.
  intros c c1.
  assert (login sample_kdf POST alice_login true c
          = (inr (redirect ep_get_all_posts), c1)) as Hlogin
      by (vm_compute; reflexivity).
  split; [exact Hlogin|].
  destruct (logout_after_login sample_kdf alice_login c c1 Hlogin)
    as (Hout & _ & _ & _ & Hagain).
  split; assumption.
Defined.

Lemma delete_post_removes_witness :
  let c := ctx_of blog_with_comment 0 in
  pending c = [] /\ privileged c = true
  /\ exists c',
      delete_post 1 c = (inr (redirect ep_get_all_posts), c')
      /\ BlogPost_query_get 1 (db c') = None.
Proof.
  intros c. split; [reflexivity|]. split; [vm_compute; reflexivity|].
  edestruct (delete_post_removes 1 c) as (c' & Hrun & Hgone & _);
    [reflexivity | vm_compute; reflexivity | vm_compute; reflexivity |].
  exists c'. split; assumption.
Defined.

Lemma admin_views_missing_post_witness :
  let c := ctx_of blog_with_comment 0 in
  privileged c = true
  /\ BlogPost_query_get 5 (db c) = None
  /\ BlogPost_query_get (2 ^ 63) (db c) = None
  /\ edit_post POST 5 hello2 true c = (inl AttributeError, c)
  /\ delete_post 5 c = (inl UnmappedInstanceError, c)
  /\ edit_post POST (2 ^ 63) hello2 true c = (inl OverflowError, c)
  /\ delete_post (2 ^ 63) c = (inl OverflowError, c).
Proof.
  intros c.
  assert (privileged c = true) as Hadmin by (vm_compute; reflexivity).
  split; [exact Hadmin|]. split; [reflexivity|]. split; [reflexivity|].
  destruct (admin_views_missing_post POST 5 hello2 true c Hadmin eq_refl)
    as [Hsmall _].
  destruct (admin_views_missing_post POST (2 ^ 63) hello2 true c Hadmin
                                     eq_refl) as [_ Hlarge].
  destruct (Hsmall eq_refl) as [Hedit Hdelete].
  destruct (Hlarge eq_refl) as [Hedit' Hdelete'].
  repeat split; assumption.
Defined.

Lemma edit_post_shows_form_witness :
  let c := ctx_of blog_with_comment 0 in
  privileged c = true
  /\ edit_post GET 1 second false c
     = (inr (render_template (make_post_html hello true)), c).
Proof.
  intros c. split; [vm_compute; reflexivity|].
  edestruct (edit_post_shows_form 1 second false c) as [Hget _];
    [vm_compute; reflexivity ..|].
  exact Hget.
Defined.

Lemma add_new_post_taken_title_witness :
  let c := ctx_of blog_with_comment 0 in
  pending c = [] /\ privileged c = true
  /\ In (form_title hello2) (map BlogPost.title (blog_posts (db c)))
  /\ add_new_post sample_env POST hello2 true c
     = (inl IntegrityError, rolled_back c).
Proof.
  intros c.
  assert (In (form_title hello2) (map BlogPost.title (blog_posts (db c))))
    as Htaken by (vm_compute; left; reflexivity).
  split; [reflexivity|]. split; [vm_compute; reflexivity|].
  split; [exact Htaken|].
  apply (add_new_post_taken_title sample_env hello2 c eq_refl);
    [vm_compute; reflexivity | exact Htaken].
Defined.

Lemma edit_post_taken_title_witness :
  let c := ctx_of blog_two_posts 0 in
  pending c = [] /\ privileged c = true
  /\ edit_post POST 2 hello true c = (inl IntegrityError, rolled_back c).
Proof.
  intros c. split; [reflexivity|]. split; [vm_compute; reflexivity|].
  eapply (edit_post_taken_title 2 hello c);
    [ reflexivity | vm_compute; reflexivity | vm_compute; reflexivity
    | vm_compute; reflexivity | vm_compute; left; reflexivity
    | vm_compute; discriminate | reflexivity ].
Defined.

Lemma only_validated_posts_write_witness :
  let r := {| method := POST; route := url_register bob;
              validates := false |} in
  let c := ctx_of blog_registered 1 in
  method r = POST /\ validates r = false
  /\ users (db (snd (dispatch sample_kdf sample_env r c))) = users (db c).
Proof.
  intros r c. split; [reflexivity|]. split; [reflexivity|].
  destruct (only_validated_posts_write sample_kdf sample_env r c)
    as [Hdb _]; [right; split; reflexivity|].
  now rewrite Hdb.
Defined.

Lemma post_to_get_only_route_witness :
  let r := {| method := POST; route := url_delete_post 1;
              validates := true |} in
  let c := ctx_of blog_with_comment 0 in
  method r = POST /\ get_only (route r) = true
  /\ dispatch sample_kdf sample_env r c = (inl (HTTPException 405), c).
Proof.
  intros r c. split; [reflexivity|]. split; [reflexivity|].
  apply (post_to_get_only_route sample_kdf sample_env r c); reflexivity.
Defined.

Lemma comments_never_removed_witness :
  let r := {| method := GET; route := url_delete_post 1;
              validates := false |} in
  exists cm cm',
    nth_error (comments (store blog_with_comment)) 0 = Some cm
    /\ nth_error
         (comments (store (snd (serve sample_kdf sample_env 0 r
                                      blog_with_comment)))) 0 = Some cm'
    /\ Comment.text cm' = Comment.text cm.
Proof.
  intros r.
  edestruct (comments_never_removed sample_kdf sample_env 0%nat r
                                    blog_with_comment 0%nat)
    as (cm' & Hnth & _ & _ & Htext & _); [vm_compute; reflexivity|].
  do 2 eexists. split; [vm_compute; reflexivity|].
  split; [exact Hnth | exact Htext].
Defined.

Lemma posts_are_by_the_admin_witness :
  reachable sample_kdf blog_with_comment
  /\ map BlogPost.author_id (blog_posts (store blog_with_comment)) = [Some 1].
Proof.
  split; [apply reachable_blog_with_comment|].
  assert (exists p, blog_posts (store blog_with_comment) = [p]) as [p Hp]
      by (eexists; vm_compute; reflexivity).
  rewrite Hp. cbn. f_equal. f_equal.
  apply (posts_are_by_the_admin sample_kdf blog_with_comment p).
  - apply reachable_blog_with_comment.
  - rewrite Hp. now left.
Defined.

Lemma cookie_names_existing_user_witness :
  reachable sample_kdf blog_with_comment
  /\ user_id (cookies blog_with_comment 1) = Some 2
  /\ exists u,
      session_user (cookies blog_with_comment 1) (store blog_with_comment)
      = Some u
      /\ User.id u = 2.
Proof.
  split; [apply reachable_blog_with_comment|]. split; [reflexivity|].
  destruct (cookie_names_existing_user sample_kdf blog_with_comment 1%nat 2
              reachable_blog_with_comment eq_refl) as (u & Hu & _ & Hid).
  exists u. split; assumption.
Defined.

Lemma other_clients_stay_logged_in_witness :
  let r := {| method := GET; route := url_logout; validates := false |} in
  let s' := snd (serve sample_kdf sample_env 0 r blog_with_comment) in
  reachable sample_kdf blog_with_comment
  /\ session_user (cookies s' 1) (store s')
     = session_user (cookies blog_with_comment 1) (store blog_with_comment).
Proof.
  intros r s'. split; [apply reachable_blog_with_comment|].
  apply (other_clients_stay_logged_in sample_kdf sample_env 0%nat 1%nat r
           blog_with_comment reachable_blog_with_comment).
  discriminate.
Defined.

Lemma register_then_login_witness :
  let c := ctx_of initial 0 in
  let c2 := ctx_of blog_registered 3 in
  pending c = []
  /\ ~ In (reg_email alice) (map User.email (users (db c)))
  /\ db c2 = db (snd (register sample_kdf sample_env POST alice true c))
  /\ login sample_kdf POST alice_login true c2
     = (inr (redirect ep_get_all_posts), logged_in_as 1 c2).
Proof.
  intros c c2. split; [reflexivity|]. split; [intros []|].
  split; [reflexivity|].
  apply (register_then_login sample_kdf sample_env alice c c2 eq_refl);
    [intros [] | reflexivity].
Defined.

Lemma first_registrant_is_admin_witness :
  let c := ctx_of initial 0 in
  pending c = []
  /\ ~ In (reg_email alice) (map User.email (users (db c)))
  /\ privileged (snd (register sample_kdf sample_env POST alice true c)) = true.
Proof.
  intros c.
  assert (~ In (reg_email alice) (map User.email (users (db c)))) as Hnew
      by (intros []).
  split; [reflexivity|]. split; [exact Hnew|].
  destruct (first_registrant_is_admin sample_kdf sample_env alice c
              eq_refl Hnew) as [Hfirst _].
  apply Hfirst. reflexivity.
Defined.

Lemma posts_change_needs_admin_witness :
  let r := {| method := GET; route := url_delete_post 1;
              validates := false |} in
  let c := ctx_of blog_with_comment 1 in
  pending c = [] /\ privileged c = false
  /\ blog_posts (db (snd (dispatch sample_kdf sample_env r c)))
     = blog_posts (db c).
Proof.
  intros r c. split; [reflexivity|]. split; [vm_compute; reflexivity|].
  apply (posts_change_needs_admin sample_kdf sample_env r c eq_refl).
  vm_compute. reflexivity.
Defined.

Lemma login_failure_messages_witness :
  let c := ctx_of blog_with_comment 2 in
  login sample_kdf POST {| login_email := "c@x.com"; login_password := "pw" |}
        true c
  = (inr (render_template
            (login_html {| login_email := "c@x.com";
                           login_password := "pw" |})),
     flashed c "This email does not exist. Please try again." "error").
Proof.
  intros c.
  apply (login_failure_messages sample_kdf
           {| login_email := "c@x.com"; login_password := "pw" |} c).
  vm_compute. intuition discriminate.
Defined.
